(** * OpenSSL locking glue of mediasoup (src/OpenSSL.cpp)

    A shallow embedding of the class [OpenSSL]: its two static attributes
    ([mutexes], [numMutexes]), the lifecycle functions [ClassInit] and
    [ClassDestroy], and the five callbacks handed to the library.

    The program is sequential C++ that talks to three outside parties: the
    allocator ([new], [delete]), the pthread mutex primitives and the OpenSSL
    library.  Each function is a computation in a small state monad over a
    [World]: the two globals, the heap of mutex objects and the trace of
    every outside call, in program order.

    The [int] values of the program (lock count, loop counter, mode, return
    codes) are integers of [Z]: the only arithmetic on them is the loop
    counter, which stays below the lock count and so never wraps. *)

From stdpp Require Import base numbers option list gmap strings.
From Stdlib Require Import ZArith Lia.

Local Open Scope Z_scope.

(** ** Memory: pointers, mutex objects, heap *)

Abbreviation block := positive.

(** A pointer is null or an offset (counted in mutex objects) into an
    allocated block; [&p[n]] moves the offset. *)
Inductive ptr : Type :=
| nullptr
| Ptr (b : block) (ofs : Z).

#[global] Instance ptr_eq_dec : EqDecision ptr.
Proof. solve_decision. Defined.

(** The life of one [pthread_mutex_t] of default type, as POSIX gives it:
    storage that was never initialised, an initialised mutex that is free or
    held by a thread, and a destroyed one. *)
Inductive pthread_mutex_t : Type :=
| MUninit
| MIdle
| MLocked (owner : Z)
| MDestroyed.

#[global] Instance pthread_mutex_t_eq_dec : EqDecision pthread_mutex_t.
Proof. solve_decision. Defined.

Definition is_null (p : ptr) : bool :=
  match p with nullptr => true | Ptr _ _ => false end.

(** [&p[n]] *)
Definition index (p : ptr) (n : Z) : ptr :=
  match p with
  | nullptr => nullptr
  | Ptr b o => Ptr b (o + n)
  end.

Definition load (h : gmap block (list pthread_mutex_t)) (p : ptr)
  : option pthread_mutex_t :=
  match p with
  | nullptr => None
  | Ptr b o => if 0 <=? o then h !! b ≫= (λ cells, cells !! Z.to_nat o) else None
  end.

Definition store (p : ptr) (m : pthread_mutex_t)
    (h : gmap block (list pthread_mutex_t)) : gmap block (list pthread_mutex_t) :=
  match p with
  | nullptr => h
  | Ptr b o =>
      if 0 <=? o then alter (λ cells, <[Z.to_nat o := m]> cells) b h else h
  end.

(** ** Constants of the interfaces *)

(** The mode bits, as the comment of [LockingFunction] lists them. *)
Definition CRYPTO_LOCK : Z := 1.
Definition CRYPTO_UNLOCK : Z := 2.
Definition CRYPTO_READ : Z := 4.
Definition CRYPTO_WRITE : Z := 8.

(** The error code of [pthread_mutex_destroy] on a mutex that is held. *)
Definition EBUSY : Z := 16.

(** ** Trace of outside calls *)

(** The five functions of the class that are registered with the library. *)
Inductive callback : Type :=
| CbSetThreadId
| CbLockingFunction
| CbDynCreateFunction
| CbDynLockFunction
| CbDynDestroyFunction.

Inductive lib_call : Type :=
| SSL_load_error_strings
| SSL_library_init
| RAND_poll
| ERR_remove_thread_state (tid : ptr)
| ENGINE_cleanup
| ERR_free_strings
| EVP_cleanup
| CRYPTO_cleanup_all_ex_data
| SSL_COMP_get_compression_methods
| sk_SSL_COMP_free
| CRYPTO_THREADID_set_numeric (v : Z)
| CRYPTO_THREADID_set_callback (f : option callback)
| CRYPTO_set_locking_callback (f : option callback)
| CRYPTO_set_dynlock_create_callback (f : option callback)
| CRYPTO_set_dynlock_lock_callback (f : option callback)
| CRYPTO_set_dynlock_destroy_callback (f : option callback).

Inductive log_level : Type := LTrace | LDebug | LError.

Inductive event : Type :=
| Log (lvl : log_level) (msg : string) (args : list Z)
| Lib (c : lib_call)
| NewArray (n : Z) (p : ptr)
| NewRecord (p : ptr)
| NewArrayThrows (n : Z)
| NewRecordThrows
| DeleteArray (p : ptr)
| DeleteRecord (p : ptr)
| MutexInit (p : ptr) (rc : Z)
| MutexLock (p : ptr)
| MutexUnlock (p : ptr)
| MutexDestroy (p : ptr) (rc : Z).

#[global] Instance callback_eq_dec : EqDecision callback.
Proof. solve_decision. Defined.
#[global] Instance lib_call_eq_dec : EqDecision lib_call.
Proof. solve_decision. Defined.
#[global] Instance log_level_eq_dec : EqDecision log_level.
Proof. solve_decision. Defined.
#[global] Instance event_eq_dec : EqDecision event.
Proof. solve_decision. Defined.

(** ** The world and the monad *)

Record World : Type := mkWorld {
  mutexes : ptr;                                (* OpenSSL::mutexes *)
  numMutexes : Z;                               (* OpenSSL::numMutexes *)
  heap : gmap block (list pthread_mutex_t);     (* live allocations *)
  trace : list event                            (* outside calls, oldest first *)
}.

(** The static attributes as lines 12 and 13 initialise them. *)
Definition initial_world : World :=
  {| mutexes := nullptr; numMutexes := 0; heap := ∅; trace := [] |}.

(** What the environment decides and the program cannot: the lock count
    the library declares, when the allocator gives up, what
    [pthread_mutex_init] answers, and which thread is running. *)
Record Env : Type := mkEnv {
  num_locks : Z;                                          (* CRYPTO_num_locks() *)
  new_fails : gmap block (list pthread_mutex_t) → Z → bool; (* heap, length *)
  mutex_init_rc : ptr → Z;                                (* 0 is success *)
  self : Z                                                (* pthread_self() *)
}.

(** Modelled from the spec: the exception of MediaSoupError.h, which is
    not part of the sources at hand; [MS_THROW_ERROR] raises it with a
    format string and its arguments.  The other two constructors are the
    exceptions of a [new]-expression that cannot be served. *)
Inductive exception : Type :=
| MkMediaSoupError (msg : string) (args : list Z)
| std_bad_alloc
| std_bad_array_new_length.

(** How a call ends: it returns, it leaves by an exception, the process is
    aborted, the calling thread is parked on a mutex another thread holds,
    or the behaviour is undefined. *)
Inductive result (A : Type) : Type :=
| Returned (a : A) (w : World)
| Thrown (e : exception) (w : World)
| Aborted (w : World)
| Blocked (w : World)
| Undefined.

Arguments Returned {A} a w.
Arguments Thrown {A} e w.
Arguments Aborted {A} w.
Arguments Blocked {A} w.
Arguments Undefined {A}.

Definition M (A : Type) : Type := World → result A.

#[global] Instance M_ret : MRet M := λ A a w, Returned a w.

#[global] Instance M_bind : MBind M := λ A B k m w,
  match m w with
  | Returned a w' => k a w'
  | Thrown e w' => Thrown e w'
  | Aborted w' => Aborted w'
  | Blocked w' => Blocked w'
  | Undefined => Undefined
  end.

Definition emit (e : event) (w : World) : World :=
  {| mutexes := mutexes w; numMutexes := numMutexes w;
     heap := heap w; trace := trace w ++ [e] |}.

Definition with_heap (f : gmap block (list pthread_mutex_t) →
                          gmap block (list pthread_mutex_t)) (w : World) : World :=
  {| mutexes := mutexes w; numMutexes := numMutexes w;
     heap := f (heap w); trace := trace w |}.

Definition get {A : Type} (f : World → A) : M A := λ w, Returned (f w) w.

Definition tell (e : event) : M unit := λ w, Returned () (emit e w).

Definition set_mutexes (p : ptr) : M unit := λ w,
  Returned () {| mutexes := p; numMutexes := numMutexes w;
                 heap := heap w; trace := trace w |}.

Definition set_numMutexes (n : Z) : M unit := λ w,
  Returned () {| mutexes := mutexes w; numMutexes := n;
                 heap := heap w; trace := trace w |}.

(** [for (int i = 0; i < n; i++) body(i)].  Neither loop of the file
    assigns its bound in the body, so the bound is read once; the loop then
    runs max(0, n) times unless the body leaves it. *)
Fixpoint for_from (k : nat) (i : Z) (body : Z → M unit) : M unit :=
  match k with
  | O => mret ()
  | S k' => body i ;; for_from k' (i + 1) body
  end.

Definition for_lt (n : Z) (body : Z → M unit) : M unit :=
  for_from (Z.to_nat n) 0 body.

(** ** Logging and error macros *)

(** Modelled from the spec: the macros of Logger.h and MediaSoupError.h,
    which are not part of the sources at hand.  The tracing and logging
    macros only report; [MS_THROW_ERROR] leaves the function by an
    exception; [MS_ABORT] ends the process. *)
Definition MS_TRACE (fn : string) : M unit := tell (Log LTrace fn []).
Definition MS_DEBUG (msg : string) (args : list Z) : M unit := tell (Log LDebug msg args).
Definition MS_ERROR (msg : string) (args : list Z) : M unit := tell (Log LError msg args).
Definition MS_THROW_ERROR {A : Type} (msg : string) (args : list Z) : M A :=
  λ w, Thrown (MkMediaSoupError msg args) w.
Definition MS_ABORT {A : Type} (msg : string) : M A :=
  λ w, Aborted (emit (Log LError msg []) w).

Definition lib (c : lib_call) : M unit := tell (Lib c).

Section Program.

Context (E : Env).

(** ** The allocator *)

(** [new pthread_mutex_t[n]].  A [new]-expression never yields null: a
    negative length is refused with [std::bad_array_new_length] before any
    storage is asked for, and when the allocator gives up the expression
    throws [std::bad_alloc].  Either way control leaves before the
    assignment of line 29.  A served request yields a block that was not
    live, holding [n] objects that no one has initialised. *)
Definition new_array (n : Z) : M ptr := λ w,
  if n <? 0 then Thrown std_bad_array_new_length w
  else if new_fails E (heap w) n then
    Thrown std_bad_alloc (emit (NewArrayThrows n) w)
  else
    let b := fresh (dom (heap w)) in
    Returned (Ptr b 0)
      (emit (NewArray n (Ptr b 0))
         (with_heap (insert b (replicate (Z.to_nat n) MUninit)) w)).

(** Modelled from the spec: the record [CRYPTO_dynlock_value] is declared
    in OpenSSL.h, which is not part of the sources at hand; it holds
    exactly one mutex.  [new CRYPTO_dynlock_value] throws
    [std::bad_alloc] when the allocator gives up. *)
Definition new_record : M ptr := λ w,
  if new_fails E (heap w) 1 then
    Thrown std_bad_alloc (emit NewRecordThrows w)
  else
    let b := fresh (dom (heap w)) in
    Returned (Ptr b 0)
      (emit (NewRecord (Ptr b 0)) (with_heap (insert b [MUninit]) w)).

(** [delete[] p] and [delete p]: of a null pointer nothing happens; only
    the start of a live block may be released. *)
Definition release (ev : ptr → event) (p : ptr) : M unit := λ w,
  match p with
  | nullptr => Returned () (emit (ev p) w)
  | Ptr b o =>
      if decide (o = 0) then
        match heap w !! b with
        | Some _ => Returned () (emit (ev p) (with_heap (delete b) w))
        | None => Undefined
        end
      else Undefined
  end.

Definition delete_array : ptr → M unit := release DeleteArray.
Definition delete_record : ptr → M unit := release DeleteRecord.

(** ** The pthread mutex primitives *)

(** [pthread_mutex_init(p, nullptr)]: on storage that holds no live mutex;
    it may fail, and then leaves the storage as it was. *)
Definition pthread_mutex_init (p : ptr) : M Z := λ w,
  match load (heap w) p with
  | Some MUninit | Some MDestroyed =>
      let rc := mutex_init_rc E p in
      Returned rc
        (emit (MutexInit p rc)
           (if decide (rc = 0) then with_heap (store p MIdle) w else w))
  | _ => Undefined
  end.

(** [pthread_mutex_lock(p)]: takes a free mutex, waits for one that
    another thread holds. *)
Definition pthread_mutex_lock (p : ptr) : M Z := λ w,
  match load (heap w) p with
  | Some MIdle =>
      Returned 0 (emit (MutexLock p) (with_heap (store p (MLocked (self E))) w))
  | Some (MLocked t) =>
      if decide (t = self E) then Undefined else Blocked (emit (MutexLock p) w)
  | _ => Undefined
  end.

(** [pthread_mutex_unlock(p)]: only the holder may release. *)
Definition pthread_mutex_unlock (p : ptr) : M Z := λ w,
  match load (heap w) p with
  | Some (MLocked t) =>
      if decide (t = self E) then
        Returned 0 (emit (MutexUnlock p) (with_heap (store p MIdle) w))
      else Undefined
  | _ => Undefined
  end.

(** [pthread_mutex_destroy(p)]: a free mutex is destroyed; one that is held
    is refused with [EBUSY] and stays as it is. *)
Definition pthread_mutex_destroy (p : ptr) : M Z := λ w,
  match load (heap w) p with
  | Some MIdle =>
      Returned 0 (emit (MutexDestroy p 0) (with_heap (store p MDestroyed) w))
  | Some (MLocked _) => Returned EBUSY (emit (MutexDestroy p EBUSY) w)
  | _ => Undefined
  end.

(** ** The library *)

Definition CRYPTO_num_locks : M Z := get (λ _, num_locks E).

(** [(unsigned long)pthread_self()] *)
Definition pthread_self : M Z := get (λ _, self E mod 2 ^ 64).

(** ** OpenSSL::ClassInit (lines 17 to 47) *)

(** The body of the loop of lines 35 to 40. *)
Definition init_slot (i : Z) : M unit :=
  tbl ← get mutexes ;
  err ← pthread_mutex_init (index tbl i) ;
  if decide (err ≠ 0) then
    MS_THROW_ERROR "pthread_mutex_init() failed with return code %d\n" [err]
  else mret ().

Definition ClassInit : M unit :=
  MS_TRACE "ClassInit" ;;
  MS_DEBUG "loaded openssl version: %s" [] ;;
  (* First initialize OpenSSL stuff. *)
  lib SSL_load_error_strings ;;
  lib SSL_library_init ;;
  lib RAND_poll ;;
  (* Make OpenSSL thread-safe. *)
  n ← CRYPTO_num_locks ;
  p ← new_array n ;
  set_mutexes p ;;
  (* never taken: [new] does not yield null *)
  (if is_null p then MS_THROW_ERROR "allocation of mutexes failed" [] else mret ()) ;;
  n' ← CRYPTO_num_locks ;
  set_numMutexes n' ;;
  bound ← get numMutexes ;
  for_lt bound init_slot ;;
  lib (CRYPTO_THREADID_set_callback (Some CbSetThreadId)) ;;
  lib (CRYPTO_set_locking_callback (Some CbLockingFunction)) ;;
  lib (CRYPTO_set_dynlock_create_callback (Some CbDynCreateFunction)) ;;
  lib (CRYPTO_set_dynlock_lock_callback (Some CbDynLockFunction)) ;;
  lib (CRYPTO_set_dynlock_destroy_callback (Some CbDynDestroyFunction)).

(** ** OpenSSL::ClassDestroy (lines 49 to 88) *)

(** The body of the loop of lines 73 to 78. *)
Definition destroy_slot (i : Z) : M unit :=
  tbl ← get mutexes ;
  err ← pthread_mutex_destroy (index tbl i) ;
  if decide (err ≠ 0) then
    MS_ERROR "pthread_mutex_destroy() failed with return code %d\n" [err]
  else mret ().

Definition ClassDestroy : M unit :=
  MS_TRACE "ClassDestroy" ;;
  MS_DEBUG "unloading openssl" [] ;;
  (* Thread-local cleanup functions. *)
  lib (ERR_remove_thread_state nullptr) ;;
  (* Application-global cleanup functions that are aware of usage. *)
  lib ENGINE_cleanup ;;
  (* "Brutal" (thread-unsafe) application-global cleanup functions. *)
  lib ERR_free_strings ;;
  lib EVP_cleanup ;;
  lib CRYPTO_cleanup_all_ex_data ;;
  lib SSL_COMP_get_compression_methods ;;
  lib sk_SSL_COMP_free ;;
  (* Free mutexes. *)
  bound ← get numMutexes ;
  for_lt bound destroy_slot ;;
  tbl ← get mutexes ;
  (if is_null tbl then mret () else delete_array tbl) ;;
  (* Reset callbacks. *)
  lib (CRYPTO_THREADID_set_callback None) ;;
  lib (CRYPTO_set_locking_callback None) ;;
  lib (CRYPTO_set_dynlock_create_callback None) ;;
  lib (CRYPTO_set_dynlock_lock_callback None) ;;
  lib (CRYPTO_set_dynlock_destroy_callback None).

(** ** The callbacks (lines 90 to 151) *)

Definition SetThreadId : M unit :=
  t ← pthread_self ;
  lib (CRYPTO_THREADID_set_numeric t).

(** The arguments [file] and [line] are not used by the body. *)
Definition LockingFunction (mode n : Z) : M unit :=
  tbl ← get mutexes ;
  if decide (Z.land mode CRYPTO_LOCK ≠ 0) then
    pthread_mutex_lock (index tbl n) ;; mret ()
  else
    pthread_mutex_unlock (index tbl n) ;; mret ().

Definition DynCreateFunction : M ptr :=
  value ← new_record ;
  (* never taken: [new] does not yield null; the [return nullptr] of
     line 128 follows the abort *)
  if is_null value then MS_ABORT "new CRYPTO_dynlock_value failed"
  else
    (* &value->mutex is the first and only member *)
    pthread_mutex_init (index value 0) ;;
    mret value.

Definition DynLockFunction (mode : Z) (v : ptr) : M unit :=
  if decide (Z.land mode CRYPTO_LOCK ≠ 0) then
    pthread_mutex_lock (index v 0) ;; mret ()
  else
    pthread_mutex_unlock (index v 0) ;; mret ().

Definition DynDestroyFunction (v : ptr) : M unit :=
  pthread_mutex_destroy (index v 0) ;;
  delete_record v.

End Program.


(** ** What the lifecycle functions are expected to leave behind *)

(** The reports at entry (lines 19 and 21), which are no step of the
    set-up. *)
Definition init_reports : list event :=
  [ Log LTrace "ClassInit" [];
    Log LDebug "loaded openssl version: %s" [] ].

(** Lines 24 to 26. *)
Definition init_bootstrap : list event :=
  [ Lib SSL_load_error_strings;
    Lib SSL_library_init;
    Lib RAND_poll ].

Definition registrations : list event :=
  [ Lib (CRYPTO_THREADID_set_callback (Some CbSetThreadId));
    Lib (CRYPTO_set_locking_callback (Some CbLockingFunction));
    Lib (CRYPTO_set_dynlock_create_callback (Some CbDynCreateFunction));
    Lib (CRYPTO_set_dynlock_lock_callback (Some CbDynLockFunction));
    Lib (CRYPTO_set_dynlock_destroy_callback (Some CbDynDestroyFunction)) ].

(** The successful initialisations of slots [i], [i+1], ..., [i+n-1]. *)
Definition slot_inits (tbl : ptr) (i n : Z) : list event :=
  (λ j, MutexInit (index tbl j) 0) <$> seqZ i n.

(** The world a successful [ClassInit] leaves. *)
Definition after_init (E : Env) (w : World) : World :=
  let b := fresh (dom (heap w)) in
  {| mutexes := Ptr b 0;
     numMutexes := num_locks E;
     heap := <[b := replicate (Z.to_nat (num_locks E)) MIdle]> (heap w);
     trace := trace w ++ init_reports ++ init_bootstrap
                      ++ [NewArray (num_locks E) (Ptr b 0)]
                      ++ slot_inits (Ptr b 0) 0 (num_locks E) ++ registrations |}.

Definition slots_init_ok (E : Env) (tbl : ptr) (i n : Z) : bool :=
  forallb (λ j, mutex_init_rc E (index tbl j) =? 0) (seqZ i n).

(** The environment lets [ClassInit] through: the table is served and
    every slot initialises. *)
Definition init_ok (E : Env) (w : World) : bool :=
  negb ((num_locks E <? 0) || new_fails E (heap w) (num_locks E))
  && slots_init_ok E (Ptr (fresh (dom (heap w))) 0) 0 (num_locks E).

(** The reports at entry (lines 51 and 53). *)
Definition destroy_reports : list event :=
  [ Log LTrace "ClassDestroy" [];
    Log LDebug "unloading openssl" [] ].

(** Lines 58 to 70. *)
Definition destroy_cleanup : list event :=
  [ Lib (ERR_remove_thread_state nullptr);
    Lib ENGINE_cleanup;
    Lib ERR_free_strings;
    Lib EVP_cleanup;
    Lib CRYPTO_cleanup_all_ex_data;
    Lib SSL_COMP_get_compression_methods;
    Lib sk_SSL_COMP_free ].

Definition deregistrations : list event :=
  [ Lib (CRYPTO_THREADID_set_callback None);
    Lib (CRYPTO_set_locking_callback None);
    Lib (CRYPTO_set_dynlock_create_callback None);
    Lib (CRYPTO_set_dynlock_lock_callback None);
    Lib (CRYPTO_set_dynlock_destroy_callback None) ].

(** What one turn of the loop of [ClassDestroy] shows to the outside: the
    call, and the report of line 77 when the call failed. *)
Definition destroy_report (p : ptr) (rc : Z) : list event :=
  MutexDestroy p rc ::
  (if decide (rc = 0) then []
   else [Log LError "pthread_mutex_destroy() failed with return code %d\n" [rc]]).

(** The turns for slots [i], [i+1], ... with the given return codes. *)
Fixpoint slot_destroys (tbl : ptr) (i : Z) (rcs : list Z) : list event :=
  match rcs with
  | [] => []
  | rc :: rcs' => destroy_report (index tbl i) rc ++ slot_destroys tbl (i + 1) rcs'
  end.

(** Lines 79 and 80. *)
Definition table_free (tbl : ptr) : list event :=
  if is_null tbl then [] else [DeleteArray tbl].

(** An initialised mutex, free or held. *)
Definition initialised (c : pthread_mutex_t) : bool :=
  match c with MIdle | MLocked _ => true | MUninit | MDestroyed => false end.

(** What [pthread_mutex_destroy] answers on an initialised mutex, and
    what it leaves. *)
Definition destroy_rc (c : pthread_mutex_t) : Z :=
  match c with MIdle => 0 | _ => EBUSY end.

Definition destroyed (c : pthread_mutex_t) : pthread_mutex_t :=
  match c with MIdle => MDestroyed | _ => c end.

(** The globals point at a live table of [numMutexes] objects. *)
Definition live_table (w : World) (b : block) (cells : list pthread_mutex_t) : Prop :=
  mutexes w = Ptr b 0 ∧ heap w !! b = Some cells ∧
  Z.of_nat (length cells) = numMutexes w.

(** The world [ClassDestroy] leaves when it ran over the table [cells] in
    block [b]: the globals are as they were. *)
Definition after_destroy (w : World) (b : block) (cells : list pthread_mutex_t) : World :=
  {| mutexes := mutexes w;
     numMutexes := numMutexes w;
     heap := delete b (heap w);
     trace := trace w ++ destroy_reports ++ destroy_cleanup
                      ++ slot_destroys (Ptr b 0) 0 (destroy_rc <$> cells)
                      ++ [DeleteArray (Ptr b 0)] ++ deregistrations |}.

(** ** Reading a trace *)

(** The events a world gained since an earlier one. *)
Definition since (w w' : World) : list event :=
  drop (length (trace w)) (trace w').

(** A callback of the class is handed to the library. *)
Definition is_registration (e : event) : bool :=
  match e with
  | Lib (CRYPTO_THREADID_set_callback (Some _))
  | Lib (CRYPTO_set_locking_callback (Some _))
  | Lib (CRYPTO_set_dynlock_create_callback (Some _))
  | Lib (CRYPTO_set_dynlock_lock_callback (Some _))
  | Lib (CRYPTO_set_dynlock_destroy_callback (Some _)) => true
  | _ => false
  end.

(** The calls of [pthread_mutex_init], with their return codes. *)
Definition mutex_inits (evs : list event) : list (ptr * Z) :=
  omap (λ e, match e with MutexInit p rc => Some (p, rc) | _ => None end) evs.

(** The calls of [pthread_mutex_destroy], with their return codes. *)
Definition mutex_destroys (evs : list event) : list (ptr * Z) :=
  omap (λ e, match e with MutexDestroy p rc => Some (p, rc) | _ => None end) evs.

(** The results of [new]. *)
Definition allocations (evs : list event) : list ptr :=
  omap (λ e, match e with NewArray _ p | NewRecord p => Some p | _ => None end) evs.

(** The arguments of [delete] and [delete[]]. *)
Definition releases (evs : list event) : list ptr :=
  omap (λ e, match e with DeleteArray p | DeleteRecord p => Some p | _ => None end) evs.

(** The addresses of slots 0 to n-1 of the table in block [b]. *)
Definition table_slots (b : block) (n : Z) : list ptr :=
  (λ j, Ptr b j) <$> seqZ 0 n.

(** ** Sample environments *)

(** Two static locks, an allocator that serves, mutexes that initialise. *)
Definition env0 : Env :=
  {| num_locks := 2; new_fails := λ _ _, false;
     mutex_init_rc := λ _, 0; self := 7 |}.

Definition ENOMEM : Z := 12.

(** As [env0], but [pthread_mutex_init] is out of memory. *)
Definition env_init_fails : Env :=
  {| num_locks := 2; new_fails := λ _ _, false;
     mutex_init_rc := λ _, ENOMEM; self := 7 |}.

(** As [env0], but the allocator gives up. *)
Definition env_new_fails : Env :=
  {| num_locks := 2; new_fails := λ _ _, true;
     mutex_init_rc := λ _, 0; self := 7 |}.

(** A library that declares no static lock at all. *)
Definition env_no_locks : Env :=
  {| num_locks := 0; new_fails := λ _ _, false;
     mutex_init_rc := λ _, 0; self := 7 |}.

(** The world of [env0] after [ClassInit]. *)
Definition world1 : World := after_init env0 initial_world.

(** The world of [env0] after [ClassInit] and [ClassDestroy]. *)
Definition world2 : World := after_destroy world1 1%positive [MIdle; MIdle].

(** The world of [env0] after [ClassInit] and a lock of slot 0 that the
    running thread still holds. *)
Definition world_held : World :=
  {| mutexes := Ptr 1 0; numMutexes := 2;
     heap := {[ 1%positive := [MLocked 7; MIdle] ]};
     trace := trace world1 ++ [MutexLock (Ptr 1 0)] |}.

(** The library calling [LockingFunction] again and again, each call
    given as (mode, n). *)
Fixpoint locking_calls (E : Env) (calls : list (Z * Z)) : M unit :=
  match calls with
  | [] => mret ()
  | (mode, n) :: rest => LockingFunction E mode n ;; locking_calls E rest
  end.

(** The world of [env0] after one [DynCreateFunction]. *)
Definition world_dyn : World :=
  {| mutexes := nullptr; numMutexes := 0;
     heap := {[ 1%positive := [MIdle] ]};
     trace := [NewRecord (Ptr 1 0); MutexInit (Ptr 1 0) 0] |}.

(** ** Further sample environments and readings *)

(** Three static locks, the second of which does not initialise. *)
Definition env_slot1_fails : Env :=
  {| num_locks := 3; new_fails := λ _ _, false;
     mutex_init_rc := λ p, if decide (p = Ptr 1 1) then ENOMEM else 0;
     self := 7 |}.

Definition is_mutex_init (e : event) : bool :=
  match e with MutexInit _ _ => true | _ => false end.

(** The table in block [b] is live and every mutex of it is initialised. *)
Definition table_ready (w : World) (b : block) : Prop :=
  ∃ cells, live_table w b cells ∧ forallb initialised cells = true.

(** The world of [env0] after one [DynCreateFunction] and a lock of the
    handle that the running thread still holds. *)
Definition world_dyn_held : World :=
  {| mutexes := nullptr; numMutexes := 0;
     heap := {[ 1%positive := [MLocked 7] ]};
     trace := trace world_dyn ++ [MutexLock (Ptr 1 0)] |}.

(** The world of [env0] after two calls of [DynCreateFunction]. *)
Definition world_dyn2 : World :=
  {| mutexes := nullptr; numMutexes := 0;
     heap := <[ 2%positive := [MIdle] ]> {[ 1%positive := [MIdle] ]};
     trace := trace world_dyn ++ [NewRecord (Ptr 2 0); MutexInit (Ptr 2 0) 0] |}.

(** The world of [env0] after [DynCreateFunction] and
    [DynDestroyFunction]. *)
Definition world_dyn_gone : World :=
  {| mutexes := nullptr; numMutexes := 0; heap := ∅;
     trace := trace world_dyn ++ [MutexDestroy (Ptr 1 0) 0; DeleteRecord (Ptr 1 0)] |}.

(** As [env0], seen from another thread. *)
Definition env_other_thread : Env :=
  {| num_locks := 2; new_fails := λ _ _, false;
     mutex_init_rc := λ _, 0; self := 8 |}.

(** The exception of line 39. *)
Definition is_init_error (e : exception) : Prop :=
  ∃ rc, rc ≠ 0 ∧
        e = MkMediaSoupError "pthread_mutex_init() failed with return code %d\n" [rc].


(** ** Evaluation of the monad *)

Ltac mred :=
  unfold mbind, M_bind, mret, M_ret, get, tell, lib,
         MS_TRACE, MS_DEBUG, MS_ERROR, MS_THROW_ERROR, MS_ABORT,
         set_mutexes, set_numMutexes, CRYPTO_num_locks; cbn.

#[global] Arguments load : simpl never.
#[global] Arguments store : simpl never.
#[global] Arguments index : simpl never.

Lemma index_0 b (i : Z) : index (Ptr b 0) i = Ptr b i.
Proof. reflexivity. Qed.

Lemma seqZ_S (i : Z) (k : nat) :
  seqZ i (Z.of_nat (S k)) = i :: seqZ (i + 1) (Z.of_nat k).
Proof.
  rewrite seqZ_cons by lia. f_equal. f_equal; lia.
Qed.

Lemma load_middle (h : gmap block (list pthread_mutex_t)) b done c rest i :
  h !! b = Some (done ++ c :: rest) →
  Z.of_nat (length done) = i →
  load h (Ptr b i) = Some c.
Proof.
  intros Hb Hi. unfold load.
  destruct (Z.leb_spec 0 i) as [_|]; [|lia].
  rewrite Hb. cbn. subst i. rewrite Nat2Z.id. apply list_lookup_middle. done.
Qed.

Lemma store_middle (h : gmap block (list pthread_mutex_t)) b done c c' rest i :
  h !! b = Some (done ++ c :: rest) →
  Z.of_nat (length done) = i →
  store (Ptr b i) c' h !! b = Some ((done ++ [c']) ++ rest).
Proof.
  intros Hb Hi. unfold store.
  destruct (Z.leb_spec 0 i) as [_|]; [|lia].
  rewrite lookup_alter_eq, Hb. cbn. f_equal.
  subst i. rewrite Nat2Z.id.
  rewrite insert_app_r_alt by lia. rewrite Nat.sub_diag. cbn.
  by rewrite <- app_assoc.
Qed.

Lemma insert_store (h : gmap block (list pthread_mutex_t)) b o c cells :
  <[b := cells]> (store (Ptr b o) c h) = <[b := cells]> h.
Proof. unfold store. destruct (0 <=? o); [apply insert_alter_eq|done]. Qed.

Lemma for_from_S (k : nat) (i : Z) (body : Z → M unit) (w : World) :
  for_from (S k) i body w =
    match body i w with
    | Returned _ w' => for_from k (i + 1) body w'
    | Thrown e w' => Thrown e w'
    | Aborted w' => Aborted w'
    | Blocked w' => Blocked w'
    | Undefined => Undefined
    end.
Proof. reflexivity. Qed.

(** One turn of the loop of [ClassInit] on storage that holds no mutex. *)
Lemma init_slot_run E b n h tr i :
  load h (Ptr b i) = Some MUninit →
  init_slot E i (mkWorld (Ptr b 0) n h tr) =
    let rc := mutex_init_rc E (Ptr b i) in
    if decide (rc = 0) then
      Returned () (mkWorld (Ptr b 0) n (store (Ptr b i) MIdle h)
                     (tr ++ [MutexInit (Ptr b i) 0]))
    else
      Thrown (MkMediaSoupError
                "pthread_mutex_init() failed with return code %d\n" [rc])
             (mkWorld (Ptr b 0) n h (tr ++ [MutexInit (Ptr b i) rc])).
Proof.
  intros Hl. unfold init_slot, pthread_mutex_init. mred.
  rewrite index_0, Hl. cbn.
  destruct (decide (mutex_init_rc E (Ptr b i) = 0)) as [Hrc|Hrc].
  - rewrite Hrc. by rewrite decide_False by (by intros []).
  - by rewrite decide_True.
Qed.

(** The initialisation loop from slot [i] on, over a table whose first [i]
    slots are done: it returns exactly when every remaining slot
    initialises, and otherwise leaves by the exception of line 39. *)
Lemma init_loop E b (k : nat) :
  ∀ i done n h tr,
    Z.of_nat (length done) = i →
    h !! b = Some (done ++ replicate k MUninit) →
    match for_from k i (init_slot E) (mkWorld (Ptr b 0) n h tr) with
    | Returned _ w' =>
        slots_init_ok E (Ptr b 0) i (Z.of_nat k) = true ∧
        w' = mkWorld (Ptr b 0) n (<[b := done ++ replicate k MIdle]> h)
               (tr ++ slot_inits (Ptr b 0) i (Z.of_nat k))
    | Thrown _ _ => slots_init_ok E (Ptr b 0) i (Z.of_nat k) = false
    | _ => False
    end.
Proof.
  induction k as [|k IH]; intros i done n h tr Hi Hb.
  - cbn in Hb |- *. rewrite app_nil_r in Hb |- *. split; [done|].
    rewrite insert_id by done. unfold slot_inits.
    change (seqZ i 0) with (@nil Z). cbn. by rewrite app_nil_r.
  - rewrite for_from_S.
    rewrite init_slot_run
      by apply (load_middle h b done MUninit (replicate k MUninit) i Hb Hi).
    unfold slots_init_ok, slot_inits. rewrite seqZ_S.
    cbn [forallb fmap list_fmap]. cbn zeta. rewrite index_0.
    destruct (decide (mutex_init_rc E (Ptr b i) = 0)) as [Hrc|Hrc].
    + rewrite Hrc. cbn [Z.eqb andb].
      assert (Hlen : Z.of_nat (length (done ++ [MIdle])) = i + 1)
        by (rewrite length_app; cbn; lia).
      pose proof (store_middle h b done MUninit MIdle _ i Hb Hi) as Hst.
      specialize (IH (i + 1) (done ++ [MIdle]) n (store (Ptr b i) MIdle h)
                     (tr ++ [MutexInit (Ptr b i) 0]) Hlen Hst).
      destruct (for_from k (i + 1) (init_slot E) _) as [[] w'| | | |]; try done.
      destruct IH as [Hok ->]. split; [done|].
      rewrite insert_store. f_equal.
      * by rewrite <- app_assoc.
      * by rewrite <- app_assoc.
    + apply Z.eqb_neq in Hrc as Hrc'. by rewrite Hrc'.
Qed.

(** [ClassInit] returns exactly when the environment lets it, and then
    leaves [after_init]; otherwise it leaves by an exception. *)
Lemma ClassInit_run E w :
  match ClassInit E w with
  | Returned _ w' => init_ok E w = true ∧ w' = after_init E w
  | Thrown _ _ => init_ok E w = false
  | _ => False
  end.
Proof.
  destruct w as [tbl n h tr]. unfold ClassInit, init_ok, after_init, new_array.
  mred.
  destruct (num_locks E <? 0) eqn:Hneg; cbn; [done|].
  destruct (new_fails E h (num_locks E)) eqn:Hal; cbn; [done|].
  unfold for_lt.
  set (b := fresh (dom h)). set (N := num_locks E) in *.
  apply Z.ltb_ge in Hneg as HN.
  pose proof (init_loop E b (Z.to_nat N) 0 [] N
                (<[b := replicate (Z.to_nat N) MUninit]> h)
                ((((((tr ++ [Log LTrace "ClassInit" []]) ++
                     [Log LDebug "loaded openssl version: %s" []]) ++
                    [Lib SSL_load_error_strings]) ++
                   [Lib SSL_library_init]) ++
                  [Lib RAND_poll]) ++
                 [NewArray N (Ptr b 0)])
                eq_refl (lookup_insert_eq _ _ _)) as HL.
  rewrite Z2Nat.id in HL by done.
  destruct (for_from (Z.to_nat N) 0 (init_slot E) _) as [[] w'| | | |]; try done.
  destruct HL as [Hok ->]. split; [done|].
  unfold tell, emit. cbn. f_equal.
  - by rewrite insert_insert_eq.
  - unfold init_reports, init_bootstrap, registrations.
    by rewrite <- !app_assoc.
Qed.

Lemma ClassInit_returned E w w1 :
  ClassInit E w = Returned () w1 → init_ok E w = true ∧ w1 = after_init E w.
Proof.
  intros H. pose proof (ClassInit_run E w) as HR. by rewrite H in HR.
Qed.

Lemma ClassInit_ok E w :
  init_ok E w = true → ClassInit E w = Returned () (after_init E w).
Proof.
  intros H. pose proof (ClassInit_run E w) as HR.
  destruct (ClassInit E w) as [[] w'| | | |]; try done.
  - by destruct HR as [_ ->].
  - congruence.
Qed.

(** When the environment does not let it through, [ClassInit] leaves by
    an exception: the table could not be allocated, or some mutex did not
    initialise. *)
Lemma ClassInit_fails E w :
  init_ok E w = false → ∃ e w', ClassInit E w = Thrown e w'.
Proof.
  intros H. pose proof (ClassInit_run E w) as HR.
  destruct (ClassInit E w) as [[] w'|e w'| | |]; try done.
  - destruct HR. congruence.
  - by exists e, w'.
Qed.

Example ClassInit_no_table :
  ClassInit env_new_fails initial_world =
    Thrown std_bad_alloc
      {| mutexes := nullptr; numMutexes := 0; heap := ∅;
         trace := init_reports ++ init_bootstrap ++ [NewArrayThrows 2] |}.
Proof. vm_compute. reflexivity. Qed.

(** With no static lock the table is empty, and is still allocated and
    released. *)
Example ClassInit_no_locks :
  ClassInit env_no_locks initial_world =
    Returned () (after_init env_no_locks initial_world) ∧
  allocations (since initial_world (after_init env_no_locks initial_world))
    = [Ptr 1 0] ∧
  mutex_inits (since initial_world (after_init env_no_locks initial_world))
    = [] ∧
  ∃ w2, ClassDestroy (after_init env_no_locks initial_world) = Returned () w2 ∧
        releases (since (after_init env_no_locks initial_world) w2) = [Ptr 1 0] ∧
        heap w2 = ∅.
Proof.
  repeat split; try (vm_compute; reflexivity).
  eexists. repeat split; vm_compute; reflexivity.
Qed.

(** One turn of the loop of [ClassDestroy], whatever the table is: if it
    returns, the globals are untouched and the trace grew by one report. *)
Lemma destroy_slot_returned i w w' :
  destroy_slot i w = Returned () w' →
  ∃ rc, mutexes w' = mutexes w ∧ numMutexes w' = numMutexes w ∧
        trace w' = trace w ++ destroy_report (index (mutexes w) i) rc.
Proof.
  unfold destroy_slot, pthread_mutex_destroy. mred.
  destruct (load (heap w) (index (mutexes w) i)) as [[| |t|]|]; cbn; try done.
  - intros [= <-]. by exists 0.
  - intros [= <-]. exists EBUSY. cbn. by rewrite <- app_assoc.
Qed.

Lemma destroy_loop_returned (k : nat) :
  ∀ i w w',
    for_from k i destroy_slot w = Returned () w' →
    ∃ rcs, length rcs = k ∧
           mutexes w' = mutexes w ∧ numMutexes w' = numMutexes w ∧
           trace w' = trace w ++ slot_destroys (mutexes w) i rcs.
Proof.
  induction k as [|k IH]; intros i w w' H.
  - injection H as <-. exists []. by rewrite app_nil_r.
  - rewrite for_from_S in H.
    destruct (destroy_slot i w) as [[] w1| | | |] eqn:H1; try done.
    apply destroy_slot_returned in H1 as (rc & Hm & Hn & Ht).
    apply IH in H as (rcs & Hlen & Hm' & Hn' & Ht').
    exists (rc :: rcs). cbn. rewrite Hlen, Hm', Hn', Ht', Hm, Hn, Ht.
    by rewrite <- app_assoc.
Qed.

(** One turn on an initialised mutex: it always returns. *)
Lemma destroy_slot_run b n h tr i c :
  load h (Ptr b i) = Some c → initialised c = true →
  destroy_slot i (mkWorld (Ptr b 0) n h tr) =
    Returned ()
      (mkWorld (Ptr b 0) n
         (match c with MIdle => store (Ptr b i) MDestroyed h | _ => h end)
         (tr ++ destroy_report (Ptr b i) (destroy_rc c))).
Proof.
  intros Hl Hc. unfold destroy_slot, pthread_mutex_destroy. mred.
  rewrite index_0, Hl. destruct c as [| |t|]; try done; cbn.
  unfold destroy_report, tell, emit.
  rewrite decide_True, decide_False by done.
  cbn. by rewrite <- app_assoc.
Qed.

(** The whole loop over initialised mutexes: every slot gets its turn. *)
Lemma destroy_loop_live b (rest : list pthread_mutex_t) :
  ∀ i done n h tr,
    Z.of_nat (length done) = i →
    h !! b = Some (done ++ rest) →
    forallb initialised rest = true →
    for_from (length rest) i destroy_slot (mkWorld (Ptr b 0) n h tr) =
      Returned ()
        (mkWorld (Ptr b 0) n (<[b := done ++ (destroyed <$> rest)]> h)
           (tr ++ slot_destroys (Ptr b 0) i (destroy_rc <$> rest))).
Proof.
  induction rest as [|c rest IH]; intros i done n h tr Hi Hb Hall.
  - cbn. rewrite !app_nil_r in *. by rewrite insert_id.
  - cbn in Hall. apply andb_true_iff in Hall as [Hc Hall].
    cbn [length]. rewrite for_from_S.
    rewrite (destroy_slot_run b n h tr i c)
      by (done || by apply (load_middle h b done c rest i)).
    assert (Hlen : Z.of_nat (length (done ++ [destroyed c])) = i + 1)
      by (rewrite length_app; cbn; lia).
    cbn [fmap list_fmap slot_destroys]. rewrite index_0.
    rewrite (app_assoc tr), (cons_middle (destroyed c)), (app_assoc done).
    destruct c as [| |t|]; try done.
    + pose proof (store_middle h b done MIdle MDestroyed rest i Hb Hi) as Hst.
      rewrite (IH (i + 1) (done ++ [MDestroyed]) n _ _ Hlen Hst Hall).
      by rewrite insert_store.
    + rewrite (cons_middle (MLocked t)), (app_assoc done) in Hb.
      by rewrite (IH (i + 1) (done ++ [MLocked t]) n h _ Hlen Hb Hall).
Qed.

(** [ClassDestroy] over a live table of initialised mutexes always runs
    to its end. *)
Lemma ClassDestroy_live w b cells :
  live_table w b cells → forallb initialised cells = true →
  ClassDestroy w = Returned () (after_destroy w b cells).
Proof.
  destruct w as [tbl n h tr]. intros (Ht & Hb & Hn) Hall. cbn in Ht, Hb, Hn.
  subst tbl. unfold ClassDestroy, after_destroy. mred. unfold for_lt.
  rewrite <- Hn, Nat2Z.id. unfold emit. cbn.
  rewrite (destroy_loop_live b cells 0 [] _ h _ eq_refl Hb Hall).
  cbn. unfold delete_array, release. cbn.
  rewrite lookup_insert_eq, decide_True by done.
  unfold tell, emit, with_heap. cbn. f_equal. f_equal.
  - by rewrite delete_insert_eq.
  - unfold destroy_reports, destroy_cleanup, deregistrations. by rewrite <- !app_assoc.
Qed.

(** Whatever the world, a [ClassDestroy] that returns went through its
    steps in program order and left the globals as they were. *)
Lemma ClassDestroy_returned w w' :
  ClassDestroy w = Returned () w' →
  ∃ rcs, length rcs = Z.to_nat (numMutexes w) ∧
         mutexes w' = mutexes w ∧ numMutexes w' = numMutexes w ∧
         trace w' = trace w ++ destroy_reports ++ destroy_cleanup
                            ++ slot_destroys (mutexes w) 0 rcs
                            ++ table_free (mutexes w) ++ deregistrations.
Proof.
  destruct w as [tbl n h tr]. unfold ClassDestroy. mred.
  unfold for_lt, emit. cbn.
  destruct (for_from (Z.to_nat n) 0 destroy_slot _) as [[] w1| | | |] eqn:HL;
    try done.
  apply destroy_loop_returned in HL as (rcs & Hlen & Hm & Hn & Ht).
  cbn in Hm, Hn, Ht. rewrite Hm. unfold table_free.
  destruct tbl as [|b o]; cbn.
  - intros [= <-]. exists rcs. cbn. rewrite Hm, Hn, Ht.
    unfold destroy_reports, destroy_cleanup, deregistrations. by rewrite <- !app_assoc.
  - unfold delete_array, release.
    destruct (decide (o = 0)) as [->|]; [|done].
    destruct (heap w1 !! b); [|done]. cbn.
    intros [= <-]. exists rcs. cbn. rewrite Hm, Hn, Ht.
    unfold destroy_reports, destroy_cleanup, deregistrations. by rewrite <- !app_assoc.
Qed.

(** ** Reading traces *)

Lemma since_app w w' evs : trace w' = trace w ++ evs → since w w' = evs.
Proof. intros H. unfold since. rewrite H. apply drop_app_length. Qed.

Lemma since_after_init E w :
  since w (after_init E w) =
    init_reports ++ init_bootstrap
      ++ [NewArray (num_locks E) (Ptr (fresh (dom (heap w))) 0)]
      ++ slot_inits (Ptr (fresh (dom (heap w))) 0) 0 (num_locks E)
      ++ registrations.
Proof. by apply since_app. Qed.

Lemma since_after_destroy w b cells :
  since w (after_destroy w b cells) =
    destroy_reports ++ destroy_cleanup
      ++ slot_destroys (Ptr b 0) 0 (destroy_rc <$> cells)
      ++ [DeleteArray (Ptr b 0)] ++ deregistrations.
Proof. by apply since_app. Qed.

Lemma fresh_block (h : gmap block (list pthread_mutex_t)) :
  h !! fresh (dom h) = None.
Proof. apply not_elem_of_dom, is_fresh. Qed.

Lemma slot_inits_no_registration tbl i n :
  forallb (λ e, negb (is_registration e)) (slot_inits tbl i n) = true.
Proof.
  unfold slot_inits. induction (seqZ i n) as [|j l IH]; [done|]. by cbn.
Qed.

(** In a list that ends with [R], an element with property [P] that no
    element before [R] has lies in [R]. *)
Lemma split_behind {A} (P : A → bool) (X R pre post : list A) (e : A) :
  X ++ R = pre ++ e :: post →
  forallb (λ x, negb (P x)) X = true → P e = true →
  ∃ r, pre = X ++ r.
Proof.
  revert pre. induction X as [|x X IH]; intros pre Heq HX He.
  - by exists pre.
  - cbn in HX. apply andb_true_iff in HX as [Hx HX].
    destruct pre as [|p pre]; cbn in Heq.
    + injection Heq as -> _. by rewrite He in Hx.
    + injection Heq as -> Heq. destruct (IH pre Heq HX He) as [r ->].
      by exists r.
Qed.

(** C2. A [ClassInit] that returns has made, after the two reports at
    entry, exactly these outside calls in this order: the three bootstrap
    calls of the library; the allocation of one table of
    [CRYPTO_num_locks()] mutex objects, in a block that was not live; one
    successful [pthread_mutex_init] for each slot 0 .. N-1, in rising order;
    the registration of the five callbacks.  In particular every slot has
    been initialised before any callback is registered. *)
Theorem ClassInit_steps E w w1 :
  ClassInit E w = Returned () w1 →
  ∃ b, heap w !! b = None ∧
    heap w1 !! b = Some (replicate (Z.to_nat (num_locks E)) MIdle) ∧
    since w w1 =
      init_reports ++
      init_bootstrap ++
      [NewArray (num_locks E) (Ptr b 0)] ++
      ((λ j, MutexInit (Ptr b j) 0) <$> seqZ 0 (num_locks E)) ++
      [ Lib (CRYPTO_THREADID_set_callback (Some CbSetThreadId));
        Lib (CRYPTO_set_locking_callback (Some CbLockingFunction));
        Lib (CRYPTO_set_dynlock_create_callback (Some CbDynCreateFunction));
        Lib (CRYPTO_set_dynlock_lock_callback (Some CbDynLockFunction));
        Lib (CRYPTO_set_dynlock_destroy_callback (Some CbDynDestroyFunction)) ] ∧
    ∀ pre e post,
      since w w1 = pre ++ e :: post → is_registration e = true →
      ∀ j, 0 ≤ j < num_locks E → MutexInit (Ptr b j) 0 ∈ pre.
Proof.
  intros [_ ->]%ClassInit_returned.
  exists (fresh (dom (heap w))). split; [apply fresh_block|].
  split; [apply lookup_insert_eq|].
  rewrite since_after_init. split; [done|].
  intros pre e post Heq He j Hj.
  rewrite !app_assoc in Heq.
  apply (split_behind is_registration) in Heq as [r ->]; [| |done].
  - apply elem_of_app. left. apply elem_of_app. right.
    unfold slot_inits.
    apply list_elem_of_fmap. exists j. split; [done|].
    apply elem_of_seqZ. lia.
  - rewrite !forallb_app, slot_inits_no_registration. done.
Qed.

Lemma ClassInit_steps_witness :
  ∃ b, heap initial_world !! b = None ∧
    heap world1 !! b = Some (replicate (Z.to_nat (num_locks env0)) MIdle) ∧
    since initial_world world1 =
      init_reports ++
      init_bootstrap ++
      [NewArray (num_locks env0) (Ptr b 0)] ++
      ((λ j, MutexInit (Ptr b j) 0) <$> seqZ 0 (num_locks env0)) ++
      [ Lib (CRYPTO_THREADID_set_callback (Some CbSetThreadId));
        Lib (CRYPTO_set_locking_callback (Some CbLockingFunction));
        Lib (CRYPTO_set_dynlock_create_callback (Some CbDynCreateFunction));
        Lib (CRYPTO_set_dynlock_lock_callback (Some CbDynLockFunction));
        Lib (CRYPTO_set_dynlock_destroy_callback (Some CbDynDestroyFunction)) ] ∧
    ∀ pre e post,
      since initial_world world1 = pre ++ e :: post → is_registration e = true →
      ∀ j, 0 ≤ j < num_locks env0 → MutexInit (Ptr b j) 0 ∈ pre.
Proof. apply (ClassInit_steps env0 initial_world world1). vm_compute. reflexivity. Defined.

Lemma mutex_destroys_report p rc :
  mutex_destroys (destroy_report p rc) = [(p, rc)].
Proof. unfold destroy_report. by destruct (decide (rc = 0)). Qed.

Lemma releases_report p rc : releases (destroy_report p rc) = [].
Proof. unfold destroy_report. by destruct (decide (rc = 0)). Qed.

Lemma mutex_destroys_app l1 l2 :
  mutex_destroys (l1 ++ l2) = mutex_destroys l1 ++ mutex_destroys l2.
Proof. apply omap_app. Qed.

Lemma releases_app l1 l2 : releases (l1 ++ l2) = releases l1 ++ releases l2.
Proof. apply omap_app. Qed.

Lemma mutex_destroys_slots tbl (rcs : list Z) :
  ∀ i, mutex_destroys (slot_destroys tbl i rcs) =
       zip (index tbl <$> seqZ i (Z.of_nat (length rcs))) rcs.
Proof.
  induction rcs as [|rc rcs IH]; intros i; [done|].
  cbn [slot_destroys length].
  by rewrite mutex_destroys_app, IH, seqZ_S, mutex_destroys_report.
Qed.

Lemma releases_slots tbl (rcs : list Z) :
  ∀ i, releases (slot_destroys tbl i rcs) = [].
Proof.
  induction rcs as [|rc rcs IH]; intros i; [done|].
  cbn [slot_destroys].
  by rewrite releases_app, IH, releases_report.
Qed.

(** C3. A [ClassDestroy] that returns has made, after the two reports at
    entry, exactly these outside calls in this order: the release of the
    calling thread's error state; the usage-aware clean-up; the three
    thread-unsafe clean-ups (error strings, ciphers and digests, extension
    data); the release of the compression methods; one
    [pthread_mutex_destroy] for each slot 0 .. numMutexes-1 in rising order
    (each followed by a report when it failed), then the release of the
    table; the five callbacks set to null. *)
Theorem ClassDestroy_steps w w' :
  ClassDestroy w = Returned () w' →
  ∃ rcs, length rcs = Z.to_nat (numMutexes w) ∧
    since w w' =
      destroy_reports ++
      [ Lib (ERR_remove_thread_state nullptr) ] ++
      [ Lib ENGINE_cleanup ] ++
      [ Lib ERR_free_strings; Lib EVP_cleanup; Lib CRYPTO_cleanup_all_ex_data ] ++
      [ Lib SSL_COMP_get_compression_methods; Lib sk_SSL_COMP_free ] ++
      slot_destroys (mutexes w) 0 rcs ++
      (if is_null (mutexes w) then [] else [DeleteArray (mutexes w)]) ++
      [ Lib (CRYPTO_THREADID_set_callback None);
        Lib (CRYPTO_set_locking_callback None);
        Lib (CRYPTO_set_dynlock_create_callback None);
        Lib (CRYPTO_set_dynlock_lock_callback None);
        Lib (CRYPTO_set_dynlock_destroy_callback None) ] ∧
    mutex_destroys (since w w') =
      zip ((λ j, index (mutexes w) j) <$> seqZ 0 (numMutexes w)) rcs.
Proof.
  intros (rcs & Hlen & _ & _ & Ht)%ClassDestroy_returned.
  exists rcs. split; [done|]. apply since_app in Ht. rewrite Ht.
  split; [done|].
  rewrite !mutex_destroys_app, mutex_destroys_slots, Hlen.
  unfold table_free. destruct (mutexes w) as [|b o]; cbn.
  - rewrite app_nil_r. destruct (Z.le_gt_cases 0 (numMutexes w)).
    + by rewrite Z2Nat.id.
    + rewrite Z2Nat.nonpos by lia. by rewrite !seqZ_nil by lia.
  - rewrite app_nil_r. destruct (Z.le_gt_cases 0 (numMutexes w)).
    + by rewrite Z2Nat.id.
    + rewrite Z2Nat.nonpos by lia. by rewrite !seqZ_nil by lia.
Qed.

Lemma ClassDestroy_steps_witness :
  ∃ rcs, length rcs = Z.to_nat (numMutexes world1) ∧
    since world1 world2 =
      destroy_reports ++
      [ Lib (ERR_remove_thread_state nullptr) ] ++
      [ Lib ENGINE_cleanup ] ++
      [ Lib ERR_free_strings; Lib EVP_cleanup; Lib CRYPTO_cleanup_all_ex_data ] ++
      [ Lib SSL_COMP_get_compression_methods; Lib sk_SSL_COMP_free ] ++
      slot_destroys (mutexes world1) 0 rcs ++
      (if is_null (mutexes world1) then [] else [DeleteArray (mutexes world1)]) ++
      [ Lib (CRYPTO_THREADID_set_callback None);
        Lib (CRYPTO_set_locking_callback None);
        Lib (CRYPTO_set_dynlock_create_callback None);
        Lib (CRYPTO_set_dynlock_lock_callback None);
        Lib (CRYPTO_set_dynlock_destroy_callback None) ] ∧
    mutex_destroys (since world1 world2) =
      zip ((λ j, index (mutexes world1) j) <$> seqZ 0 (numMutexes world1)) rcs.
Proof. apply (ClassDestroy_steps world1 world2). vm_compute. reflexivity. Defined.

Lemma mutex_inits_app l1 l2 :
  mutex_inits (l1 ++ l2) = mutex_inits l1 ++ mutex_inits l2.
Proof. apply omap_app. Qed.

Lemma allocations_app l1 l2 :
  allocations (l1 ++ l2) = allocations l1 ++ allocations l2.
Proof. apply omap_app. Qed.

Lemma mutex_inits_slots b n :
  mutex_inits (slot_inits (Ptr b 0) 0 n) = (λ p, (p, 0)) <$> table_slots b n.
Proof.
  unfold slot_inits, table_slots, mutex_inits.
  induction (seqZ 0 n) as [|j l IH]; [done|]. cbn. by rewrite IH.
Qed.

Lemma allocations_slots tbl i n : allocations (slot_inits tbl i n) = [].
Proof.
  unfold slot_inits, allocations. by induction (seqZ i n) as [|j l IH].
Qed.

Lemma zip_all_zero (ps : list ptr) (k : nat) :
  length ps = k → zip ps (replicate k 0) = (λ p, (p, 0)) <$> ps.
Proof.
  revert k. induction ps as [|p ps IH]; intros [|k] Hk; try done.
  cbn. rewrite IH; [done|]. cbn in Hk. lia.
Qed.

Lemma table_slots_length b n : length (table_slots b n) = Z.to_nat n.
Proof. unfold table_slots. by rewrite length_fmap, length_seqZ. Qed.

Lemma table_slots_NoDup b n : NoDup (table_slots b n).
Proof.
  unfold table_slots. apply NoDup_fmap_2; [|apply NoDup_seqZ].
  by intros x y [= ->].
Qed.

Lemma after_init_live E w :
  0 ≤ num_locks E →
  live_table (after_init E w) (fresh (dom (heap w)))
    (replicate (Z.to_nat (num_locks E)) MIdle).
Proof.
  intros HN. repeat split; cbn.
  - apply lookup_insert_eq.
  - rewrite length_replicate. lia.
Qed.

Lemma replicate_initialised k : forallb initialised (replicate k MIdle) = true.
Proof. by induction k. Qed.

Lemma init_ok_nonneg E w : init_ok E w = true → 0 ≤ num_locks E.
Proof.
  unfold init_ok. intros [H _]%andb_true_iff.
  apply negb_true_iff, orb_false_iff in H as [H _]. by apply Z.ltb_ge.
Qed.

(** [ClassDestroy] right after a successful [ClassInit]. *)
Lemma ClassDestroy_after_init E w :
  init_ok E w = true →
  ClassDestroy (after_init E w) =
    Returned () (after_destroy (after_init E w) (fresh (dom (heap w)))
                   (replicate (Z.to_nat (num_locks E)) MIdle)).
Proof.
  intros Hok%init_ok_nonneg.
  apply ClassDestroy_live; [by apply after_init_live|apply replicate_initialised].
Qed.

(** C5. For the lock count N the library declares, a [ClassInit] that
    returns has allocated one table and called [pthread_mutex_init] exactly
    once, with success, on each of its slots 0 .. N-1 and on nothing else;
    the [ClassDestroy] that follows returns, has called
    [pthread_mutex_destroy] exactly once, with success, on each of the same
    N addresses and on nothing else, and has released the table once.  The
    N addresses are pairwise distinct, and the heap is back to what it was
    before [ClassInit]. *)
Theorem init_destroy_balance E w w1 :
  ClassInit E w = Returned () w1 →
  0 ≤ num_locks E ∧
  ∃ b w2,
    heap w !! b = None ∧
    allocations (since w w1) = [Ptr b 0] ∧
    heap w1 = <[b := replicate (Z.to_nat (num_locks E)) MIdle]> (heap w) ∧
    mutex_inits (since w w1) = (λ p, (p, 0)) <$> table_slots b (num_locks E) ∧
    ClassDestroy w1 = Returned () w2 ∧
    mutex_destroys (since w1 w2) = (λ p, (p, 0)) <$> table_slots b (num_locks E) ∧
    releases (since w1 w2) = [Ptr b 0] ∧
    heap w2 = heap w ∧
    NoDup (table_slots b (num_locks E)) ∧
    length (table_slots b (num_locks E)) = Z.to_nat (num_locks E).
Proof.
  intros [Hok ->]%ClassInit_returned.
  split; [by apply (init_ok_nonneg E w)|].
  set (b := fresh (dom (heap w))).
  exists b, (after_destroy (after_init E w) b
               (replicate (Z.to_nat (num_locks E)) MIdle)).
  split; [apply fresh_block|].
  rewrite since_after_init. fold b.
  split. { by rewrite !allocations_app, allocations_slots. }
  split; [done|].
  split. { rewrite !mutex_inits_app, mutex_inits_slots. cbn. apply app_nil_r. }
  split; [by apply ClassDestroy_after_init|].
  rewrite since_after_destroy.
  split.
  { rewrite !mutex_destroys_app, mutex_destroys_slots.
    rewrite fmap_replicate, length_replicate. cbn.
    rewrite app_nil_r, Z2Nat.id by by apply (init_ok_nonneg E w).
    apply zip_all_zero. unfold table_slots. by rewrite length_fmap, length_seqZ. }
  split. { by rewrite !releases_app, releases_slots. }
  split. { cbn. apply delete_insert_id, fresh_block. }
  split; [apply table_slots_NoDup|apply table_slots_length].
Qed.

Lemma init_destroy_balance_witness :
  0 ≤ num_locks env0 ∧
  ∃ b w2,
    heap initial_world !! b = None ∧
    allocations (since initial_world world1) = [Ptr b 0] ∧
    heap world1 = <[b := replicate (Z.to_nat (num_locks env0)) MIdle]> (heap initial_world) ∧
    mutex_inits (since initial_world world1) = (λ p, (p, 0)) <$> table_slots b (num_locks env0) ∧
    ClassDestroy world1 = Returned () w2 ∧
    mutex_destroys (since world1 w2) = (λ p, (p, 0)) <$> table_slots b (num_locks env0) ∧
    releases (since world1 w2) = [Ptr b 0] ∧
    heap w2 = heap initial_world ∧
    NoDup (table_slots b (num_locks env0)) ∧
    length (table_slots b (num_locks env0)) = Z.to_nat (num_locks env0).
Proof. apply (init_destroy_balance env0 initial_world world1). vm_compute. reflexivity. Defined.

Lemma init_ok_heap E w w' : heap w' = heap w → init_ok E w' = init_ok E w.
Proof. unfold init_ok. by intros ->. Qed.

Lemma after_init_heap E w w' :
  heap w' = heap w →
  mutexes (after_init E w') = mutexes (after_init E w) ∧
  numMutexes (after_init E w') = numMutexes (after_init E w) ∧
  heap (after_init E w') = heap (after_init E w) ∧
  since w' (after_init E w') = since w (after_init E w).
Proof. intros Hh. rewrite !since_after_init. cbn. by rewrite Hh. Qed.

(** C1, as the code has it.  When [ClassDestroy] returns after a
    successful [ClassInit], the table has been released and the heap is what
    it was before [ClassInit], but the two globals are not reset: [mutexes]
    still holds the (now dangling, non-null) address of the table and
    [numMutexes] still holds the lock count.  [ClassInit] reads neither
    before it assigns them, so the next [ClassInit] succeeds identically:
    same globals, same heap, same outside calls as the first. *)
Theorem init_destroy_globals E w w1 w2 :
  ClassInit E w = Returned () w1 →
  ClassDestroy w1 = Returned () w2 →
  mutexes w2 = mutexes w1 ∧ numMutexes w2 = numMutexes w1 ∧
  mutexes w1 ≠ nullptr ∧ numMutexes w1 = num_locks E ∧
  heap w2 = heap w ∧ load (heap w2) (mutexes w2) = None ∧
  ∃ w3, ClassInit E w2 = Returned () w3 ∧
        mutexes w3 = mutexes w1 ∧ numMutexes w3 = numMutexes w1 ∧
        heap w3 = heap w1 ∧ since w2 w3 = since w w1.
Proof.
  intros [Hok ->]%ClassInit_returned.
  rewrite (ClassDestroy_after_init E w Hok). intros [= <-].
  assert (Hh : heap (after_destroy (after_init E w) (fresh (dom (heap w)))
                       (replicate (Z.to_nat (num_locks E)) MIdle)) = heap w)
    by (cbn; apply delete_insert_id, fresh_block).
  repeat split; try done.
  - rewrite Hh. cbn. unfold load. cbn. by rewrite fresh_block.
  - eexists. split.
    + apply ClassInit_ok. by rewrite (init_ok_heap E w).
    + by apply after_init_heap.
Qed.

Lemma init_destroy_globals_witness :
  mutexes world2 = mutexes world1 ∧ numMutexes world2 = numMutexes world1 ∧
  mutexes world1 ≠ nullptr ∧ numMutexes world1 = num_locks env0 ∧
  heap world2 = heap initial_world ∧ load (heap world2) (mutexes world2) = None ∧
  ∃ w3, ClassInit env0 world2 = Returned () w3 ∧
        mutexes w3 = mutexes world1 ∧ numMutexes w3 = numMutexes world1 ∧
        heap w3 = heap world1 ∧ since world2 w3 = since initial_world world1.
Proof.
  apply (init_destroy_globals env0 initial_world world1 world2);
    vm_compute; reflexivity.
Defined.

(** C1, as the specification states it, fails: with two static locks the
    globals after [ClassInit] and [ClassDestroy] are the table address and
    2, not null and 0. *)
Lemma destroy_resets_globals_counterexample :
  ClassInit env0 initial_world = Returned () world1 ∧
  ClassDestroy world1 = Returned () world2 ∧
  mutexes initial_world = nullptr ∧ numMutexes initial_world = 0 ∧
  mutexes world2 = Ptr 1 0 ∧ numMutexes world2 = 2 ∧
  ¬ (mutexes world2 = nullptr ∧ numMutexes world2 = 0).
Proof.
  repeat split; try (vm_compute; reflexivity).
  intros [H _]. vm_compute in H. discriminate H.
Qed.

Lemma slot_destroys_lookup tbl (rcs : list Z) :
  ∀ i (j : nat) rc,
    rcs !! j = Some rc →
    ∃ pre post,
      slot_destroys tbl i rcs =
        pre ++ destroy_report (index tbl (i + Z.of_nat j)) rc ++ post.
Proof.
  induction rcs as [|r rcs IH]; intros i j rc Hj; [done|].
  destruct j as [|j]; cbn in Hj.
  - injection Hj as ->. exists [], (slot_destroys tbl (i + 1) rcs).
    cbn [slot_destroys app]. by rewrite Z.add_0_r.
  - destruct (IH (i + 1) j rc Hj) as (pre & post & Heq).
    exists (destroy_report (index tbl i) r ++ pre), post.
    cbn [slot_destroys]. rewrite Heq, <- app_assoc.
    by replace (i + 1 + Z.of_nat j) with (i + Z.of_nat (S j)) by lia.
Qed.

(** C8. Over a live table of initialised mutexes, some of which may be
    held so that their destruction fails with [EBUSY], [ClassDestroy] runs
    to its end: every slot gets its [pthread_mutex_destroy], a failed one is
    followed by the error report and the loop goes on with the next slot,
    then the table is released and the five callbacks are set to null. *)
Theorem ClassDestroy_continues w b cells :
  live_table w b cells →
  forallb initialised cells = true →
  ∃ w', ClassDestroy w = Returned () w' ∧
    since w w' =
      destroy_reports ++ destroy_cleanup ++
      slot_destroys (Ptr b 0) 0 (destroy_rc <$> cells) ++
      [DeleteArray (Ptr b 0)] ++ deregistrations ∧
    heap w' = delete b (heap w) ∧
    ∀ (j : nat) c, cells !! j = Some c →
      ∃ pre post,
        since w w' =
          pre ++
          MutexDestroy (Ptr b (Z.of_nat j)) (if decide (c = MIdle) then 0 else EBUSY) ::
          (if decide (c = MIdle) then []
           else [Log LError "pthread_mutex_destroy() failed with return code %d\n" [EBUSY]]) ++
          post.
Proof.
  intros Hlive Hall. exists (after_destroy w b cells).
  split; [by apply ClassDestroy_live|].
  rewrite since_after_destroy. split; [done|]. split; [done|].
  intros j c Hj.
  destruct (slot_destroys_lookup (Ptr b 0) (destroy_rc <$> cells) 0 j (destroy_rc c))
    as (pre & post & Heq).
  { by rewrite list_lookup_fmap, Hj. }
  rewrite Heq, index_0. cbn [Z.add].
  exists (destroy_reports ++ destroy_cleanup ++ pre),
         (post ++ [DeleteArray (Ptr b 0)] ++ deregistrations).
  rewrite <- !app_assoc. do 3 f_equal.
  destruct c; done.
Qed.

Lemma ClassDestroy_continues_witness :
  ∃ w', ClassDestroy world_held = Returned () w' ∧
    since world_held w' =
      destroy_reports ++ destroy_cleanup ++
      slot_destroys (Ptr 1 0) 0 (destroy_rc <$> [MLocked 7; MIdle]) ++
      [DeleteArray (Ptr 1 0)] ++ deregistrations ∧
    heap w' = delete 1%positive (heap world_held) ∧
    ∀ (j : nat) c, [MLocked 7; MIdle] !! j = Some c →
      ∃ pre post,
        since world_held w' =
          pre ++
          MutexDestroy (Ptr 1 (Z.of_nat j)) (if decide (c = MIdle) then 0 else EBUSY) ::
          (if decide (c = MIdle) then []
           else [Log LError "pthread_mutex_destroy() failed with return code %d\n" [EBUSY]]) ++
          post.
Proof.
  apply (ClassDestroy_continues world_held 1 [MLocked 7; MIdle]).
  - repeat split; vm_compute; reflexivity.
  - reflexivity.
Defined.

(** C10. When the globals are as lines 12 and 13 leave them,
    [ClassDestroy] returns having made only its library calls: the loop
    does not turn, nothing is released ([pthread_mutex_destroy] and
    [delete[]] are not called), and heap and globals are untouched. *)
Theorem ClassDestroy_without_init w :
  mutexes w = nullptr → numMutexes w = 0 →
  ∃ w', ClassDestroy w = Returned () w' ∧
    since w w' = destroy_reports ++ destroy_cleanup ++ deregistrations ∧
    mutex_destroys (since w w') = [] ∧
    releases (since w w') = [] ∧
    heap w' = heap w ∧ mutexes w' = nullptr ∧ numMutexes w' = 0.
Proof.
  destruct w as [tbl n h tr]. cbn [mutexes numMutexes]. intros -> ->.
  exists (mkWorld nullptr 0 h
            (tr ++ destroy_reports ++ destroy_cleanup ++ deregistrations)).
  split.
  { unfold ClassDestroy. mred. unfold tell, emit. cbn. do 2 f_equal.
    unfold destroy_reports, destroy_cleanup, deregistrations.
    cbn. by rewrite <- !app_assoc. }
  assert (Hs : since (mkWorld nullptr 0 h tr)
                 (mkWorld nullptr 0 h
                    (tr ++ destroy_reports ++ destroy_cleanup ++ deregistrations))
               = destroy_reports ++ destroy_cleanup ++ deregistrations)
    by by apply since_app.
  by rewrite Hs.
Qed.

Lemma ClassDestroy_without_init_witness :
  ∃ w', ClassDestroy initial_world = Returned () w' ∧
    since initial_world w' = destroy_reports ++ destroy_cleanup ++ deregistrations ∧
    mutex_destroys (since initial_world w') = [] ∧
    releases (since initial_world w') = [] ∧
    heap w' = heap initial_world ∧ mutexes w' = nullptr ∧ numMutexes w' = 0.
Proof. apply (ClassDestroy_without_init initial_world); reflexivity. Defined.

(** ** Memory lemmas *)

Lemma load_store_eq h p m c : load h p = Some c → load (store p m h) p = Some m.
Proof.
  destruct p as [|b o]; [done|]. unfold load, store.
  destruct (0 <=? o); [|done].
  rewrite lookup_alter_eq. destruct (h !! b) as [cells|]; [|done]. cbn.
  intros Hc%lookup_lt_Some. by apply list_lookup_insert_eq.
Qed.

Lemma load_store_ne h p q m : q ≠ p → load (store p m h) q = load h q.
Proof.
  destruct p as [|b o]; [done|]. destruct q as [|b' o']; [done|].
  intros Hne. unfold load, store.
  destruct (Z.leb_spec 0 o) as [Ho|]; [|done].
  destruct (Z.leb_spec 0 o') as [Ho'|]; [|done].
  destruct (decide (b' = b)) as [->|Hb].
  - rewrite lookup_alter_eq. destruct (h !! b) as [cells|]; [|done]. cbn.
    apply list_lookup_insert_ne. intros Heq. apply Hne. f_equal. lia.
  - by rewrite lookup_alter_ne.
Qed.

Lemma store_block h p m b cells :
  h !! b = Some cells →
  ∃ cells', store p m h !! b = Some cells' ∧ length cells' = length cells.
Proof.
  intros Hb. destruct p as [|b' o]; [by exists cells|]. unfold store.
  destruct (0 <=? o); [|by exists cells].
  destruct (decide (b' = b)) as [->|Hne].
  - rewrite lookup_alter_eq, Hb. cbn. eexists. split; [done|].
    apply length_insert.
  - rewrite lookup_alter_ne by done. by exists cells.
Qed.

(** ** The mode bit *)

Lemma lock_bit mode : Z.land mode CRYPTO_LOCK = 0 ↔ Z.testbit mode 0 = false.
Proof.
  unfold CRYPTO_LOCK. change 1 with (Z.ones 1).
  rewrite Z.land_ones by lia. change (2 ^ 1) with 2.
  rewrite <- Z.bit0_mod. by destruct (Z.testbit mode 0).
Qed.

Lemma rw_bits_off mode rw :
  Z.testbit (Z.lxor mode (Z.land rw (Z.lor CRYPTO_READ CRYPTO_WRITE))) 0 =
  Z.testbit mode 0.
Proof.
  rewrite Z.lxor_spec, Z.land_spec. change (Z.testbit (Z.lor _ _) 0) with false.
  by rewrite andb_false_r, xorb_false_r.
Qed.

(** [LockingFunction] picks its primitive by bit 0 of the mode alone. *)
Lemma LockingFunction_unfold E mode n w :
  LockingFunction E mode n w =
    (if Z.testbit mode 0
     then pthread_mutex_lock E (index (mutexes w) n) ;; mret ()
     else pthread_mutex_unlock E (index (mutexes w) n) ;; mret ()) w.
Proof.
  destruct (Z.testbit mode 0) eqn:Hb.
  - assert (Z.land mode CRYPTO_LOCK ≠ 0) by (rewrite lock_bit; congruence).
    unfold LockingFunction. mred. by rewrite decide_True.
  - apply lock_bit in Hb. unfold LockingFunction. mred.
    by rewrite decide_False by (by intros []).
Qed.

Lemma DynLockFunction_unfold E mode v w :
  DynLockFunction E mode v w =
    (if Z.testbit mode 0
     then pthread_mutex_lock E (index v 0) ;; mret ()
     else pthread_mutex_unlock E (index v 0) ;; mret ()) w.
Proof.
  destruct (Z.testbit mode 0) eqn:Hb.
  - assert (Z.land mode CRYPTO_LOCK ≠ 0) by (rewrite lock_bit; congruence).
    unfold DynLockFunction. by rewrite decide_True.
  - apply lock_bit in Hb. unfold DynLockFunction.
    by rewrite decide_False by (by intros []).
Qed.

Lemma lock_idle E p w :
  load (heap w) p = Some MIdle →
  (pthread_mutex_lock E p ;; mret ()) w =
    Returned () (emit (MutexLock p) (with_heap (store p (MLocked (self E))) w)).
Proof. intros H. unfold pthread_mutex_lock. mred. by rewrite H. Qed.

Lemma lock_contended E p w t :
  load (heap w) p = Some (MLocked t) → t ≠ self E →
  (pthread_mutex_lock E p ;; mret ()) w = Blocked (emit (MutexLock p) w).
Proof.
  intros H Ht. unfold pthread_mutex_lock. mred. rewrite H.
  by rewrite decide_False.
Qed.

Lemma unlock_held E p w :
  load (heap w) p = Some (MLocked (self E)) →
  (pthread_mutex_unlock E p ;; mret ()) w =
    Returned () (emit (MutexUnlock p) (with_heap (store p MIdle) w)).
Proof.
  intros H. unfold pthread_mutex_unlock. mred. rewrite H.
  by rewrite decide_True.
Qed.

Lemma since_emit e w f : since w (emit e (with_heap f w)) = [e].
Proof. by apply since_app. Qed.

Lemma live_table_load w b cells n :
  live_table w b cells →
  load (heap w) (index (mutexes w) n) =
    if 0 <=? n then cells !! Z.to_nat n else None.
Proof.
  intros (Hm & Hb & _). rewrite Hm, index_0. unfold load. by rewrite Hb.
Qed.

(** Over a live table, the slot address is that of a mutex object exactly
    when the index is in range. *)
Lemma live_table_bounds w b cells n :
  live_table w b cells →
  is_Some (load (heap w) (index (mutexes w) n)) ↔ 0 ≤ n < numMutexes w.
Proof.
  intros Hlive. rewrite (live_table_load w b cells n Hlive).
  destruct Hlive as (_ & _ & Hn).
  destruct (Z.leb_spec 0 n) as [H0|H0].
  - rewrite lookup_lt_is_Some. lia.
  - split; [by intros [? ?]|lia].
Qed.

(** C4. For a live table and a slot index in range, [LockingFunction]
    works on the one mutex of slot n: it calls [pthread_mutex_lock] on it
    exactly when bit 0 ([CRYPTO_LOCK]) of the mode is set, and
    [pthread_mutex_unlock] on it otherwise.  Flipping the [CRYPTO_READ] and
    [CRYPTO_WRITE] bits in any way changes nothing.  Locking a free mutex
    makes the running thread its holder and returns; locking one that
    another thread holds parks the caller; unlocking one that the running
    thread holds frees it.  No other mutex changes.  The mutex is the n-th
    object of the table. *)
Theorem LockingFunction_mode E mode n w b cells :
  live_table w b cells →
  0 ≤ n < numMutexes w →
  let p := Ptr b n in
  (load (heap w) p = cells !! Z.to_nat n ∧ is_Some (load (heap w) p)) ∧
  LockingFunction E mode n w =
    (if Z.testbit mode 0
     then pthread_mutex_lock E p ;; mret ()
     else pthread_mutex_unlock E p ;; mret ()) w ∧
  (∀ rw, LockingFunction E (Z.lxor mode (Z.land rw (Z.lor CRYPTO_READ CRYPTO_WRITE))) n w
         = LockingFunction E mode n w) ∧
  (Z.testbit mode 0 = true → load (heap w) p = Some MIdle →
   ∃ w', LockingFunction E mode n w = Returned () w' ∧
         since w w' = [MutexLock p] ∧
         load (heap w') p = Some (MLocked (self E)) ∧
         ∀ q, q ≠ p → load (heap w') q = load (heap w) q) ∧
  (Z.testbit mode 0 = true →
   ∀ t, t ≠ self E → load (heap w) p = Some (MLocked t) →
   ∃ w', LockingFunction E mode n w = Blocked w' ∧ heap w' = heap w) ∧
  (Z.testbit mode 0 = false → load (heap w) p = Some (MLocked (self E)) →
   ∃ w', LockingFunction E mode n w = Returned () w' ∧
         since w w' = [MutexUnlock p] ∧
         load (heap w') p = Some MIdle ∧
         ∀ q, q ≠ p → load (heap w') q = load (heap w) q).
Proof.
  intros Hlive Hn p.
  assert (Hp : index (mutexes w) n = p)
    by (destruct Hlive as (Hm & _); by rewrite Hm, index_0).
  split.
  { rewrite <- Hp. split; [|by apply (live_table_bounds w b cells n)].
    rewrite (live_table_load w b cells n Hlive).
    destruct (Z.leb_spec 0 n); [done|lia]. }
  split; [by rewrite LockingFunction_unfold, Hp|].
  split. { intros rw. by rewrite !LockingFunction_unfold, rw_bits_off. }
  rewrite LockingFunction_unfold, Hp.
  split; [|split].
  - intros -> Hl. rewrite (lock_idle E p w Hl). eexists. split; [done|].
    split; [apply since_emit|]. cbn.
    split; [by apply (load_store_eq _ _ _ MIdle)|].
    intros q Hq. by apply load_store_ne.
  - intros -> t Ht Hl. rewrite (lock_contended E p w t Hl Ht). by eexists.
  - intros -> Hl. rewrite (unlock_held E p w Hl). eexists. split; [done|].
    split; [apply since_emit|]. cbn.
    split; [by apply (load_store_eq _ _ _ (MLocked (self E)))|].
    intros q Hq. by apply load_store_ne.
Qed.

Lemma LockingFunction_mode_witness :
  let p := Ptr 1 0 in
  let mode := Z.lor CRYPTO_LOCK CRYPTO_WRITE in
  (load (heap world1) p = [MIdle; MIdle] !! Z.to_nat 0 ∧
   is_Some (load (heap world1) p)) ∧
  LockingFunction env0 mode 0 world1 =
    (if Z.testbit mode 0
     then pthread_mutex_lock env0 p ;; mret ()
     else pthread_mutex_unlock env0 p ;; mret ()) world1 ∧
  (∀ rw, LockingFunction env0 (Z.lxor mode (Z.land rw (Z.lor CRYPTO_READ CRYPTO_WRITE))) 0 world1
         = LockingFunction env0 mode 0 world1) ∧
  (Z.testbit mode 0 = true → load (heap world1) p = Some MIdle →
   ∃ w', LockingFunction env0 mode 0 world1 = Returned () w' ∧
         since world1 w' = [MutexLock p] ∧
         load (heap w') p = Some (MLocked (self env0)) ∧
         ∀ q, q ≠ p → load (heap w') q = load (heap world1) q) ∧
  (Z.testbit mode 0 = true →
   ∀ t, t ≠ self env0 → load (heap world1) p = Some (MLocked t) →
   ∃ w', LockingFunction env0 mode 0 world1 = Blocked w' ∧ heap w' = heap world1) ∧
  (Z.testbit mode 0 = false → load (heap world1) p = Some (MLocked (self env0)) →
   ∃ w', LockingFunction env0 mode 0 world1 = Returned () w' ∧
         since world1 w' = [MutexUnlock p] ∧
         load (heap w') p = Some MIdle ∧
         ∀ q, q ≠ p → load (heap w') q = load (heap world1) q).
Proof.
  apply (LockingFunction_mode env0 (Z.lor CRYPTO_LOCK CRYPTO_WRITE) 0 world1 1
           [MIdle; MIdle]).
  - repeat split; vm_compute; reflexivity.
  - vm_compute. split; [discriminate|reflexivity].
Defined.

(** A call of [LockingFunction] that returns leaves the table in place. *)
Lemma LockingFunction_live E mode n w w' b cells :
  live_table w b cells →
  LockingFunction E mode n w = Returned () w' →
  ∃ cells', live_table w' b cells'.
Proof.
  intros (Hm & Hb & Hn). rewrite LockingFunction_unfold.
  set (p := index (mutexes w) n).
  destruct (Z.testbit mode 0).
  - unfold pthread_mutex_lock. mred.
    destruct (load (heap w) p) as [[| |t|]|]; try done.
    + intros [= <-].
      destruct (store_block (heap w) p (MLocked (self E)) b cells Hb)
        as (cells' & Hb' & Hlen).
      exists cells'. repeat split; cbn; [done..|]. by rewrite Hlen.
    + by destruct (decide (t = self E)).
  - unfold pthread_mutex_unlock. mred.
    destruct (load (heap w) p) as [[| |t|]|]; try done.
    destruct (decide (t = self E)); [|done].
    intros [= <-].
    destruct (store_block (heap w) p MIdle b cells Hb) as (cells' & Hb' & Hlen).
    exists cells'. repeat split; cbn; [done..|]. by rewrite Hlen.
Qed.

Lemma locking_calls_live E calls :
  ∀ w w' b cells,
    live_table w b cells →
    locking_calls E calls w = Returned () w' →
    ∃ cells', live_table w' b cells'.
Proof.
  induction calls as [|[mode n] calls IH]; intros w w' b cells Hlive.
  - intros [= <-]. by exists cells.
  - cbn [locking_calls]. unfold mbind, M_bind.
    destruct (LockingFunction E mode n w) as [[] w1| | | |] eqn:H1; try done.
    destruct (LockingFunction_live E mode n w w1 b cells Hlive H1) as [cells1 H].
    by apply IH with (cells := cells1).
Qed.

(** Outside the table there is nothing for the primitives to work on. *)
Lemma LockingFunction_undefined E mode n w :
  load (heap w) (index (mutexes w) n) = None →
  LockingFunction E mode n w = Undefined.
Proof.
  intros H. rewrite LockingFunction_unfold.
  destruct (Z.testbit mode 0);
    unfold pthread_mutex_lock, pthread_mutex_unlock; mred; by rewrite H.
Qed.

(** C9. After a successful [ClassInit] and any calls of [LockingFunction]
    that returned, [LockingFunction] hands [&mutexes[n]] to its primitive
    whatever n is.  For 0 <= n < numMutexes that address is one of a mutex
    object of the table; for any other n it is the address of no object and
    the call has undefined behaviour: it neither throws nor aborts nor
    reports. *)
Theorem LockingFunction_bounds E w w0 calls w1 mode n :
  ClassInit E w = Returned () w0 →
  locking_calls E calls w0 = Returned () w1 →
  LockingFunction E mode n w1 =
    (if Z.testbit mode 0
     then pthread_mutex_lock E (index (mutexes w1) n) ;; mret ()
     else pthread_mutex_unlock E (index (mutexes w1) n) ;; mret ()) w1 ∧
  (0 ≤ n < numMutexes w1 →
   is_Some (load (heap w1) (index (mutexes w1) n))) ∧
  (¬ (0 ≤ n < numMutexes w1) →
   load (heap w1) (index (mutexes w1) n) = None ∧
   LockingFunction E mode n w1 = Undefined).
Proof.
  intros [Hok ->]%ClassInit_returned Hcalls.
  apply init_ok_nonneg in Hok.
  destruct (locking_calls_live E calls _ _ _ _ (after_init_live E w Hok) Hcalls)
    as [cells Hlive].
  split; [apply LockingFunction_unfold|].
  split; [by apply (live_table_bounds w1 (fresh (dom (heap w))) cells n)|].
  intros Hn.
  assert (Hnone : load (heap w1) (index (mutexes w1) n) = None).
  { apply eq_None_not_Some.
    by rewrite (live_table_bounds w1 (fresh (dom (heap w))) cells n). }
  split; [done|]. by apply LockingFunction_undefined.
Qed.

Lemma LockingFunction_bounds_witness :
  LockingFunction env0 CRYPTO_UNLOCK 2 world_held =
    (if Z.testbit CRYPTO_UNLOCK 0
     then pthread_mutex_lock env0 (index (mutexes world_held) 2) ;; mret ()
     else pthread_mutex_unlock env0 (index (mutexes world_held) 2) ;; mret ()) world_held ∧
  (0 ≤ 2 < numMutexes world_held →
   is_Some (load (heap world_held) (index (mutexes world_held) 2))) ∧
  (¬ (0 ≤ 2 < numMutexes world_held) →
   load (heap world_held) (index (mutexes world_held) 2) = None ∧
   LockingFunction env0 CRYPTO_UNLOCK 2 world_held = Undefined).
Proof.
  apply (LockingFunction_bounds env0 initial_world world1
           [(CRYPTO_LOCK, 0)] world_held CRYPTO_UNLOCK 2);
    vm_compute; reflexivity.
Defined.

(** ** Dynamic locks *)

Lemma load_insert (h : gmap block (list pthread_mutex_t)) b cells :
  load (<[b := cells]> h) (Ptr b 0) = cells !! 0%nat.
Proof. unfold load. cbn. by rewrite lookup_insert_eq. Qed.

Lemma store_insert (h : gmap block (list pthread_mutex_t)) b c m :
  store (Ptr b 0) m (<[b := [c]]> h) = <[b := [m]]> h.
Proof. unfold store. cbn. by rewrite alter_insert_eq. Qed.

(** [DynCreateFunction] in full: when the allocator gives up, the
    exception of [new] leaves the function; otherwise the new record is
    returned, whatever [pthread_mutex_init] answered. *)
Lemma DynCreateFunction_run E w :
  DynCreateFunction E w =
    if new_fails E (heap w) 1 then
      Thrown std_bad_alloc (emit NewRecordThrows w)
    else
      let b := fresh (dom (heap w)) in
      let rc := mutex_init_rc E (Ptr b 0) in
      Returned (Ptr b 0)
        {| mutexes := mutexes w; numMutexes := numMutexes w;
           heap := <[b := [if decide (rc = 0) then MIdle else MUninit]]> (heap w);
           trace := trace w ++ [NewRecord (Ptr b 0); MutexInit (Ptr b 0) rc] |}.
Proof.
  destruct w as [tbl n h tr]. unfold DynCreateFunction, new_record. mred.
  destruct (new_fails E h 1); [done|]. cbn.
  unfold pthread_mutex_init. rewrite index_0. cbn. rewrite load_insert. cbn.
  unfold emit. cbn.
  destruct (decide (mutex_init_rc E (Ptr (fresh (dom h)) 0) = 0)); cbn.
  - rewrite store_insert, <- app_assoc. done.
  - by rewrite <- app_assoc.
Qed.

(** The part of C7 that the code keeps: null is never handed back. *)
Lemma DynCreateFunction_not_null E w w' :
  DynCreateFunction E w ≠ Returned nullptr w'.
Proof. rewrite DynCreateFunction_run. by destruct (new_fails E (heap w) 1). Qed.




(** When the allocator gives up, [std::bad_alloc] leaves the function:
    the test of line 125 is never reached with a null pointer. *)
Lemma DynCreateFunction_bad_alloc E w :
  new_fails E (heap w) 1 = true →
  DynCreateFunction E w = Thrown std_bad_alloc (emit NewRecordThrows w).
Proof. intros H. by rewrite DynCreateFunction_run, H. Qed.

Example DynCreateFunction_bad_alloc_env :
  DynCreateFunction env_new_fails initial_world =
    Thrown std_bad_alloc (emit NewRecordThrows initial_world).
Proof. by apply DynCreateFunction_bad_alloc. Qed.

(** C7, where the code departs from it.  With the allocator serving and
    [pthread_mutex_init] answering [ENOMEM], [DynCreateFunction] returns a
    non-null handle all the same: line 131 drops the return code.  The
    mutex inside the handle is not initialised, and the library's first lock
    through [DynLockFunction] has undefined behaviour.  [ClassInit] tests
    the return code of the same call (line 38) and throws in the same
    environment. *)
Theorem DynCreateFunction_unchecked_init :
  ∃ h w',
    DynCreateFunction env_init_fails initial_world = Returned h w' ∧
    h = Ptr 1 0 ∧
    since initial_world w' = [NewRecord h; MutexInit h ENOMEM] ∧
    load (heap w') (index h 0) = Some MUninit ∧
    DynLockFunction env_init_fails CRYPTO_LOCK h w' = Undefined ∧
    ∃ e w'', ClassInit env_init_fails initial_world = Thrown e w''.
Proof.
  eexists. eexists. split; [vm_compute; reflexivity|].
  repeat split; try (vm_compute; reflexivity).
  eexists. eexists. vm_compute. reflexivity.
Qed.

(** * Beyond the claims: failure paths, misuse and composition *)

#[global] Arguments since : simpl never.
#[global] Arguments releases : simpl never.
#[global] Arguments allocations : simpl never.

(** ** [ClassInit] when it fails *)

Lemma init_slot_events E i w :
  match init_slot E i w with
  | Returned _ w' =>
      ∃ rc, trace w' = trace w ++ [MutexInit (index (mutexes w) i) rc]
  | Thrown e w' =>
      is_init_error e ∧
      ∃ rc, trace w' = trace w ++ [MutexInit (index (mutexes w) i) rc]
  | Undefined => True
  | _ => False
  end.
Proof.
  unfold init_slot, pthread_mutex_init. mred.
  destruct (load (heap w) (index (mutexes w) i)) as [[| |t|]|]; try done; cbn;
    destruct (decide (mutex_init_rc E (index (mutexes w) i) ≠ 0)); cbn;
    try (split; [by eexists|]);
    eexists;
    by destruct (decide (mutex_init_rc E (index (mutexes w) i) = 0)).
Qed.

Lemma init_loop_events E (k : nat) :
  ∀ i w,
    match for_from k i (init_slot E) w with
    | Returned _ w' =>
        ∃ evs, trace w' = trace w ++ evs ∧ forallb is_mutex_init evs = true
    | Thrown e w' =>
        is_init_error e ∧
        ∃ evs, trace w' = trace w ++ evs ∧ forallb is_mutex_init evs = true
    | Undefined => True
    | _ => False
    end.
Proof.
  induction k as [|k IH]; intros i w.
  - cbn. exists []. by rewrite app_nil_r.
  - rewrite for_from_S. pose proof (init_slot_events E i w) as H1.
    destruct (init_slot E i w) as [[] w1|e w1| | |]; try done.
    + destruct H1 as [rc H1]. specialize (IH (i + 1) w1).
      destruct (for_from k (i + 1) (init_slot E) w1) as [[] w2|e w2| | |];
        try done.
      * destruct IH as (evs & Ht & Hall).
        exists (MutexInit (index (mutexes w) i) rc :: evs).
        split; [by rewrite Ht, H1, <- app_assoc|done].
      * destruct IH as (He & evs & Ht & Hall). split; [done|].
        exists (MutexInit (index (mutexes w) i) rc :: evs).
        split; [by rewrite Ht, H1, <- app_assoc|done].
    + destruct H1 as (He & rc & H1). split; [done|].
      by exists [MutexInit (index (mutexes w) i) rc].
Qed.

Lemma mutex_init_no_registration evs :
  forallb is_mutex_init evs = true →
  forallb (λ e, negb (is_registration e)) evs = true ∧ releases evs = [].
Proof.
  induction evs as [|e evs IH]; [done|]. cbn.
  intros [He Hall]%andb_true_iff. destruct (IH Hall) as [H1 H2].
  by destruct e.
Qed.

Lemma since_mk tbl n h tr tbl' n' h' evs :
  since (mkWorld tbl n h tr) (mkWorld tbl' n' h' (tr ++ evs)) = evs.
Proof. by apply since_app. Qed.

Lemma ClassInit_thrown_events E w e w' :
  ClassInit E w = Thrown e w' →
  forallb (λ e, negb (is_registration e)) (since w w') = true ∧
  releases (since w w') = [] ∧
  (e = std_bad_array_new_length ∨ e = std_bad_alloc ∨ is_init_error e).
Proof.
  destruct w as [tbl n h tr]. unfold ClassInit, new_array. mred.
  destruct (num_locks E <? 0); cbn.
  { intros [= <- <-]. unfold emit. cbn. rewrite <- !app_assoc, since_mk.
    by eauto. }
  destruct (new_fails E h (num_locks E)); cbn.
  { intros [= <- <-]. unfold emit. cbn. rewrite <- !app_assoc, since_mk.
    by eauto. }
  unfold for_lt.
  match goal with |- context [for_from ?k ?i ?f ?w0] =>
    pose proof (init_loop_events E k i w0) as HL;
    destruct (for_from k i f w0) as [[] w1|e1 w1| | |]; try done
  end.
  destruct HL as (He & evs & Ht & Hall). intros [= <- <-].
  cbn in Ht. rewrite <- !app_assoc in Ht.
  rewrite (since_app (mkWorld tbl n h tr) _ _ Ht).
  destruct (mutex_init_no_registration evs Hall) as [H1 H2].
  split; [done|]. split; [by rewrite !releases_app, H2|]. by eauto.
Qed.

(** X1. [ClassInit] ends in one of two ways only: it returns, or it leaves
    by an exception; it never aborts the process, never waits and never has
    undefined behaviour.  The exception is that of the [new]-expression
    ([std::bad_array_new_length], [std::bad_alloc]) or the [MediaSoupError]
    of line 39 with a return code other than 0; the error of line 31 is
    never thrown.  When it throws, no callback has been handed to the
    library, and nothing has been released: a table that was allocated
    stays allocated. *)
Theorem ClassInit_all_or_nothing E w :
  match ClassInit E w with
  | Returned _ w' => w' = after_init E w
  | Thrown e w' =>
      forallb (λ e, negb (is_registration e)) (since w w') = true ∧
      releases (since w w') = [] ∧
      (e = std_bad_array_new_length ∨ e = std_bad_alloc ∨
       ∃ rc, rc ≠ 0 ∧
         e = MkMediaSoupError
               "pthread_mutex_init() failed with return code %d\n" [rc]) ∧
      e ≠ MkMediaSoupError "allocation of mutexes failed" []
  | _ => False
  end.
Proof.
  pose proof (ClassInit_run E w) as HR.
  destruct (ClassInit E w) as [[] w'|e w'| | |] eqn:H; try done.
  - by destruct HR.
  - destruct (ClassInit_thrown_events E w e w' H) as (H1 & H2 & H3).
    split; [done|]. split; [done|]. split; [exact H3|].
    destruct H3 as [->|[->|(rc & _ & ->)]]; done.
Qed.

(** X2. When the table cannot be allocated, [ClassInit] leaves by the
    exception of the [new]-expression right after the bootstrap of the
    library: [std::bad_array_new_length] when the declared lock count is
    negative, [std::bad_alloc] when the allocator gives up.  The assignment
    of line 29 does not take place: [mutexes] and [numMutexes] keep their
    old values, the heap is untouched and no mutex primitive has been
    called. *)
Theorem ClassInit_alloc_failure E w :
  (num_locks E <? 0) || new_fails E (heap w) (num_locks E) = true →
  ∃ w',
    ClassInit E w =
      Thrown (if num_locks E <? 0 then std_bad_array_new_length
              else std_bad_alloc) w' ∧
    mutexes w' = mutexes w ∧ numMutexes w' = numMutexes w ∧
    heap w' = heap w ∧
    since w w' = init_reports ++ init_bootstrap ++
                 (if num_locks E <? 0 then []
                  else [NewArrayThrows (num_locks E)]) ∧
    mutex_inits (since w w') = [] ∧ allocations (since w w') = [].
Proof.
  destruct w as [tbl n h tr]. cbn [heap numMutexes mutexes]. intros Hal.
  unfold ClassInit, new_array. mred.
  destruct (num_locks E <? 0); cbn.
  - eexists. split; [done|]. unfold emit. cbn.
    rewrite <- !app_assoc, since_mk. done.
  - cbn in Hal. rewrite Hal. cbn.
    eexists. split; [done|]. unfold emit. cbn.
    rewrite <- !app_assoc, since_mk. done.
Qed.

Lemma ClassInit_alloc_failure_witness :
  ∃ w',
    ClassInit env_new_fails initial_world =
      Thrown (if num_locks env_new_fails <? 0 then std_bad_array_new_length
              else std_bad_alloc) w' ∧
    mutexes w' = mutexes initial_world ∧
    numMutexes w' = numMutexes initial_world ∧
    heap w' = heap initial_world ∧
    since initial_world w' =
      init_reports ++ init_bootstrap ++
      (if num_locks env_new_fails <? 0 then []
       else [NewArrayThrows (num_locks env_new_fails)]) ∧
    mutex_inits (since initial_world w') = [] ∧
    allocations (since initial_world w') = [].
Proof. apply (ClassInit_alloc_failure env_new_fails initial_world). reflexivity. Defined.

Lemma for_from_add (k1 k2 : nat) (body : Z → M unit) :
  ∀ i w,
    for_from (k1 + k2) i body w =
      match for_from k1 i body w with
      | Returned _ w' => for_from k2 (i + Z.of_nat k1) body w'
      | Thrown e w' => Thrown e w'
      | Aborted w' => Aborted w'
      | Blocked w' => Blocked w'
      | Undefined => Undefined
      end.
Proof.
  induction k1 as [|k1 IH]; intros i w.
  - cbn. by rewrite Z.add_0_r.
  - cbn [Nat.add]. rewrite !for_from_S.
    destruct (body i w) as [[] w1| | | |]; try done.
    rewrite IH. by replace (i + 1 + Z.of_nat k1) with (i + Z.of_nat (S k1)) by lia.
Qed.

(** The first [k] turns of the initialisation loop over a longer table. *)
Lemma init_loop_prefix E b (k : nat) :
  ∀ i done rest n h tr,
    Z.of_nat (length done) = i →
    h !! b = Some (done ++ replicate k MUninit ++ rest) →
    slots_init_ok E (Ptr b 0) i (Z.of_nat k) = true →
    for_from k i (init_slot E) (mkWorld (Ptr b 0) n h tr) =
      Returned ()
        (mkWorld (Ptr b 0) n (<[b := done ++ replicate k MIdle ++ rest]> h)
           (tr ++ slot_inits (Ptr b 0) i (Z.of_nat k))).
Proof.
  induction k as [|k IH]; intros i done rest n h tr Hi Hb Hok.
  - cbn in Hb |- *. rewrite insert_id by done. unfold slot_inits.
    change (seqZ i 0) with (@nil Z). cbn. by rewrite app_nil_r.
  - unfold slots_init_ok in Hok. rewrite seqZ_S in Hok. cbn in Hok.
    apply andb_true_iff in Hok as [Hrc%Z.eqb_eq Hok]. rewrite index_0 in Hrc.
    rewrite for_from_S.
    rewrite init_slot_run
      by apply (load_middle h b done MUninit (replicate k MUninit ++ rest) i Hb Hi).
    cbn zeta. rewrite decide_True by done.
    assert (Hlen : Z.of_nat (length (done ++ [MIdle])) = i + 1)
      by (rewrite length_app; cbn; lia).
    pose proof (store_middle h b done MUninit MIdle _ i Hb Hi) as Hst.
    rewrite (IH (i + 1) (done ++ [MIdle]) rest n _ _ Hlen Hst Hok).
    rewrite insert_store. unfold slot_inits. rewrite seqZ_S. cbn.
    rewrite index_0, <- !app_assoc. done.
Qed.

(** [ClassInit] up to the first slot that does not initialise. *)
Lemma ClassInit_fails_at E w k :
  new_fails E (heap w) (num_locks E) = false →
  0 ≤ k < num_locks E →
  slots_init_ok E (Ptr (fresh (dom (heap w))) 0) 0 k = true →
  mutex_init_rc E (Ptr (fresh (dom (heap w))) k) ≠ 0 →
  ClassInit E w =
    Thrown (MkMediaSoupError "pthread_mutex_init() failed with return code %d\n"
              [mutex_init_rc E (Ptr (fresh (dom (heap w))) k)])
      {| mutexes := Ptr (fresh (dom (heap w))) 0;
         numMutexes := num_locks E;
         heap := <[fresh (dom (heap w)) :=
                     replicate (Z.to_nat k) MIdle ++
                     replicate (Z.to_nat (num_locks E - k)) MUninit]> (heap w);
         trace := trace w ++ init_reports ++ init_bootstrap
                    ++ [NewArray (num_locks E) (Ptr (fresh (dom (heap w))) 0)]
                    ++ slot_inits (Ptr (fresh (dom (heap w))) 0) 0 k
                    ++ [MutexInit (Ptr (fresh (dom (heap w))) k)
                          (mutex_init_rc E (Ptr (fresh (dom (heap w))) k))] |}.
Proof.
  destruct w as [tbl n h tr]. cbn [heap numMutexes trace].
  set (b := fresh (dom h)). set (N := num_locks E).
  intros Hal Hk Hok Hrc.
  unfold ClassInit, new_array. mred. fold N. rewrite Hal.
  destruct (Z.ltb_spec N 0) as [|_]; [lia|]. cbn. fold b. unfold for_lt.
  set (kn := Z.to_nat k). set (m := Z.to_nat (N - k - 1)).
  assert (HN : Z.to_nat N = (kn + S m)%nat) by lia.
  assert (Hkn : Z.of_nat kn = k) by lia.
  assert (Hm : Z.to_nat (N - k) = S m) by lia.
  rewrite HN, Hm, for_from_add.
  assert (Hb : (<[b := replicate (kn + S m) MUninit]> h) !! b
               = Some ([] ++ replicate kn MUninit ++ replicate (S m) MUninit))
    by (rewrite lookup_insert_eq; cbn; by rewrite replicate_add).
  rewrite <- Hkn in Hok.
  rewrite (init_loop_prefix E b kn 0 [] _ _ _ _ eq_refl Hb Hok).
  rewrite insert_insert_eq. cbn [app Z.add].
  rewrite for_from_S, Hkn.
  rewrite init_slot_run
    by (apply (load_middle _ b (replicate kn MIdle) MUninit (replicate m MUninit));
        [by rewrite lookup_insert_eq | by rewrite length_replicate]).
  cbn zeta. rewrite decide_False by done. f_equal. f_equal.
  unfold init_reports, init_bootstrap. by rewrite <- !app_assoc.
Qed.

(** X3. When the allocator serves and slot [k] is the first whose
    [pthread_mutex_init] fails, [ClassInit] throws with the return code of
    that call.  It leaves the table allocated and both globals set, slots
    0 .. k-1 initialised and never destroyed, slot [k] and all later ones
    untouched storage; it has called [pthread_mutex_init] on slots 0 .. k
    and no further, has released nothing and has registered no callback. *)
Theorem ClassInit_slot_failure E w k :
  new_fails E (heap w) (num_locks E) = false →
  0 ≤ k < num_locks E →
  slots_init_ok E (Ptr (fresh (dom (heap w))) 0) 0 k = true →
  mutex_init_rc E (Ptr (fresh (dom (heap w))) k) ≠ 0 →
  ∃ b rc w',
    heap w !! b = None ∧ rc = mutex_init_rc E (Ptr b k) ∧
    ClassInit E w =
      Thrown (MkMediaSoupError
                "pthread_mutex_init() failed with return code %d\n" [rc]) w' ∧
    mutexes w' = Ptr b 0 ∧ numMutexes w' = num_locks E ∧
    heap w' = <[b := replicate (Z.to_nat k) MIdle ++
                      replicate (Z.to_nat (num_locks E - k)) MUninit]> (heap w) ∧
    allocations (since w w') = [Ptr b 0] ∧
    mutex_inits (since w w') = ((λ p, (p, 0)) <$> table_slots b k) ++ [(Ptr b k, rc)] ∧
    releases (since w w') = [] ∧
    forallb (λ e, negb (is_registration e)) (since w w') = true.
Proof.
  intros Hal Hk Hok Hrc.
  exists (fresh (dom (heap w))). eexists _, _.
  split; [apply fresh_block|]. split; [done|].
  split; [by apply ClassInit_fails_at|].
  split; [done|]. split; [done|]. split; [done|].
  destruct w as [tbl n h tr]. rewrite since_mk. cbn [heap].
  split. { by rewrite !allocations_app, allocations_slots. }
  split.
  { rewrite !mutex_inits_app, mutex_inits_slots. cbn. done. }
  split.
  { rewrite !releases_app. unfold slot_inits.
    by induction (seqZ 0 k) as [|j l IH]. }
  by rewrite !forallb_app, slot_inits_no_registration.
Qed.

Lemma ClassInit_slot_failure_witness :
  ∃ b rc w',
    heap initial_world !! b = None ∧ rc = mutex_init_rc env_slot1_fails (Ptr b 1) ∧
    ClassInit env_slot1_fails initial_world =
      Thrown (MkMediaSoupError
                "pthread_mutex_init() failed with return code %d\n" [rc]) w' ∧
    mutexes w' = Ptr b 0 ∧ numMutexes w' = num_locks env_slot1_fails ∧
    heap w' = <[b := replicate (Z.to_nat 1) MIdle ++
                      replicate (Z.to_nat (num_locks env_slot1_fails - 1)) MUninit]>
                (heap initial_world) ∧
    allocations (since initial_world w') = [Ptr b 0] ∧
    mutex_inits (since initial_world w') =
      ((λ p, (p, 0)) <$> table_slots b 1) ++ [(Ptr b 1, rc)] ∧
    releases (since initial_world w') = [] ∧
    forallb (λ e, negb (is_registration e)) (since initial_world w') = true.
Proof.
  apply (ClassInit_slot_failure env_slot1_fails initial_world 1);
    vm_compute; (reflexivity || discriminate || (split; [discriminate|reflexivity])).
Defined.

(** ** [ClassDestroy]: what it never does, and what misuse does *)

Lemma destroy_slot_outcome i w :
  match destroy_slot i w with
  | Returned _ _ | Undefined => True
  | _ => False
  end.
Proof.
  unfold destroy_slot, pthread_mutex_destroy. mred.
  by destruct (load (heap w) (index (mutexes w) i)) as [[| |t|]|].
Qed.

Lemma destroy_loop_outcome (k : nat) :
  ∀ i w,
    match for_from k i destroy_slot w with
    | Returned _ _ | Undefined => True
    | _ => False
    end.
Proof.
  induction k as [|k IH]; intros i w; [done|].
  rewrite for_from_S. pose proof (destroy_slot_outcome i w) as H1.
  destruct (destroy_slot i w) as [[] w1| | | |]; try done. apply IH.
Qed.

Lemma allocations_report p rc : allocations (destroy_report p rc) = [].
Proof. unfold destroy_report. by destruct (decide (rc = 0)). Qed.

Lemma allocations_slot_destroys tbl (rcs : list Z) :
  ∀ i, allocations (slot_destroys tbl i rcs) = [].
Proof.
  induction rcs as [|rc rcs IH]; intros i; [done|].
  cbn [slot_destroys]. by rewrite allocations_app, IH, allocations_report.
Qed.

Lemma ClassDestroy_outcome w :
  match ClassDestroy w with
  | Returned _ _ | Undefined => True
  | _ => False
  end.
Proof.
  destruct w as [tbl n h tr]. unfold ClassDestroy. mred. unfold for_lt.
  match goal with |- context [for_from ?k ?i ?f ?w0] =>
    pose proof (destroy_loop_outcome k i w0) as HL;
    destruct (for_from k i f w0) as [[] w1| | | |]; try done
  end.
  destruct (is_null (mutexes w1)); [done|].
  unfold delete_array, release.
  destruct (mutexes w1) as [|b o]; [done|].
  destruct (decide (o = 0)); [|done]. by destruct (heap w1 !! b).
Qed.

(** X4. [ClassDestroy] never throws, never aborts the process and never
    waits: it returns, or (on a table it must not touch) has undefined
    behaviour.  When it returns it has allocated nothing and has left both
    globals as they were. *)
Theorem ClassDestroy_never_throws w :
  match ClassDestroy w with
  | Returned _ w' =>
      mutexes w' = mutexes w ∧ numMutexes w' = numMutexes w ∧
      allocations (since w w') = []
  | Undefined => True
  | _ => False
  end.
Proof.
  pose proof (ClassDestroy_outcome w) as HO.
  destruct (ClassDestroy w) as [[] w'|e w'|w'|w'|] eqn:H; try done.
  apply ClassDestroy_returned in H as (rcs & _ & Hm & Hn & Ht).
  split; [done|]. split; [done|].
  rewrite (since_app w w' _ Ht), !allocations_app, allocations_slot_destroys.
  unfold table_free. by destruct (is_null (mutexes w)).
Qed.

Lemma load_dead (h : gmap block (list pthread_mutex_t)) b o :
  h !! b = None → load h (Ptr b o) = None.
Proof. intros H. unfold load. rewrite H. by destruct (0 <=? o). Qed.

Lemma destroy_slot_undefined i w :
  load (heap w) (index (mutexes w) i) = None → destroy_slot i w = Undefined.
Proof.
  intros H. unfold destroy_slot, pthread_mutex_destroy. mred. by rewrite H.
Qed.

(** After [ClassInit] and [ClassDestroy] the table block is gone while
    [mutexes] still points at it. *)
Lemma destroyed_world E w w1 w2 :
  ClassInit E w = Returned () w1 →
  ClassDestroy w1 = Returned () w2 →
  ∃ b, mutexes w2 = Ptr b 0 ∧ heap w2 !! b = None ∧
       numMutexes w2 = num_locks E ∧ 0 ≤ num_locks E.
Proof.
  intros [Hok ->]%ClassInit_returned.
  rewrite (ClassDestroy_after_init E w Hok). intros [= <-].
  exists (fresh (dom (heap w))). cbn.
  split; [done|]. split; [apply lookup_delete_eq|].
  split; [done|]. by apply (init_ok_nonneg E w).
Qed.

(** X5. [ClassDestroy] must not be called twice.  The first call leaves
    the address of the released table in [mutexes], so the null test of
    line 79 does not stop the second call: it calls [pthread_mutex_destroy]
    on released storage (or, with no static lock, releases the table
    again), which is undefined behaviour. *)
Theorem ClassDestroy_twice E w w1 w2 :
  ClassInit E w = Returned () w1 →
  ClassDestroy w1 = Returned () w2 →
  is_null (mutexes w2) = false ∧ ClassDestroy w2 = Undefined.
Proof.
  intros H1 H2.
  destruct (destroyed_world E w w1 w2 H1 H2) as (b & Hm & Hb & Hn & HN).
  split; [by rewrite Hm|].
  destruct w2 as [tbl n h tr]. cbn in Hm, Hb, Hn. subst tbl n.
  unfold ClassDestroy. mred. unfold for_lt.
  destruct (Z.to_nat (num_locks E)) as [|k].
  - cbn. unfold delete_array, release. cbn.
    rewrite decide_True by done. by rewrite Hb.
  - rewrite for_from_S, destroy_slot_undefined; [done|].
    cbn. rewrite index_0. by apply load_dead.
Qed.

Lemma ClassDestroy_twice_witness :
  is_null (mutexes world2) = false ∧ ClassDestroy world2 = Undefined.
Proof.
  apply (ClassDestroy_twice env0 initial_world world1 world2);
    vm_compute; reflexivity.
Defined.

(** X6. A call of [LockingFunction] that arrives after [ClassDestroy]
    works on the released table, for every slot index and every mode:
    undefined behaviour. *)
Theorem LockingFunction_after_destroy E w w1 w2 mode n :
  ClassInit E w = Returned () w1 →
  ClassDestroy w1 = Returned () w2 →
  load (heap w2) (index (mutexes w2) n) = None ∧
  LockingFunction E mode n w2 = Undefined.
Proof.
  intros H1 H2.
  destruct (destroyed_world E w w1 w2 H1 H2) as (b & Hm & Hb & _).
  assert (Hl : load (heap w2) (index (mutexes w2) n) = None)
    by (rewrite Hm, index_0; by apply load_dead).
  split; [done|]. by apply LockingFunction_undefined.
Qed.

Lemma LockingFunction_after_destroy_witness :
  load (heap world2) (index (mutexes world2) 0) = None ∧
  LockingFunction env0 CRYPTO_LOCK 0 world2 = Undefined.
Proof.
  apply (LockingFunction_after_destroy env0 initial_world world1 world2);
    vm_compute; reflexivity.
Defined.

(** X7. A call of [LockingFunction] that arrives before [ClassInit], when
    [mutexes] is still null, has undefined behaviour for every slot index
    and every mode; nothing tests for the missing table. *)
Theorem LockingFunction_before_init E w mode n :
  mutexes w = nullptr → LockingFunction E mode n w = Undefined.
Proof.
  intros Hm. apply LockingFunction_undefined. by rewrite Hm.
Qed.

Lemma LockingFunction_before_init_witness :
  LockingFunction env0 CRYPTO_LOCK 0 initial_world = Undefined.
Proof. apply (LockingFunction_before_init env0 initial_world). reflexivity. Defined.

(** ** The two lock callbacks: frame and round trip *)

Lemma store_store_id h p m c :
  load h p = Some c → store p c (store p m h) = h.
Proof.
  destruct p as [|b o]; [done|]. unfold load, store.
  destruct (0 <=? o); [|done].
  destruct (h !! b) as [cells|] eqn:Hb; [|done]. cbn. intros Hc.
  apply map_eq. intros j. destruct (decide (j = b)) as [->|Hj].
  - rewrite !lookup_alter_eq, Hb. cbn. f_equal.
    rewrite list_insert_insert_eq. by apply list_insert_id.
  - by rewrite !lookup_alter_ne.
Qed.

Lemma dom_store h p m : dom (store p m h) = dom h.
Proof.
  destruct p as [|b o]; [done|]. unfold store.
  destruct (0 <=? o); [apply dom_alter_L|done].
Qed.

Lemma since_emit_only e w : since w (emit e w) = [e].
Proof. by apply since_app. Qed.

(** What both lock callbacks do once the mutex is picked: lock it when
    bit 0 of the mode is set, unlock it otherwise. *)
Lemma mutex_op_frame E (lk : bool) p w :
  match (if lk then pthread_mutex_lock E p ;; mret ()
         else pthread_mutex_unlock E p ;; mret ()) w with
  | Returned _ w' | Blocked w' =>
      mutexes w' = mutexes w ∧ numMutexes w' = numMutexes w ∧
      dom (heap w') = dom (heap w) ∧
      (∀ q, q ≠ p → load (heap w') q = load (heap w) q) ∧
      allocations (since w w') = [] ∧ releases (since w w') = [] ∧
      mutex_inits (since w w') = [] ∧ mutex_destroys (since w w') = []
  | Undefined => True
  | _ => False
  end.
Proof.
  destruct lk; unfold pthread_mutex_lock, pthread_mutex_unlock; mred;
    destruct (load (heap w) p) as [[| |t|]|]; try done;
    try (destruct (decide (t = self E)); try done); cbn;
    rewrite ?since_emit, ?since_emit_only, ?dom_store;
    repeat split; try done; intros q Hq; by apply load_store_ne.
Qed.

(** X8. [LockingFunction] never throws and never aborts the process.  When
    it returns or waits it has neither allocated nor released memory, has
    initialised or destroyed no mutex, has left both globals and the set of
    live blocks as they were, and has changed no mutex other than the one
    at [&mutexes[n]]. *)
Theorem LockingFunction_frame E mode n w :
  match LockingFunction E mode n w with
  | Returned _ w' | Blocked w' =>
      mutexes w' = mutexes w ∧ numMutexes w' = numMutexes w ∧
      dom (heap w') = dom (heap w) ∧
      (∀ q, q ≠ index (mutexes w) n → load (heap w') q = load (heap w) q) ∧
      allocations (since w w') = [] ∧ releases (since w w') = [] ∧
      mutex_inits (since w w') = [] ∧ mutex_destroys (since w w') = []
  | Undefined => True
  | _ => False
  end.
Proof.
  rewrite LockingFunction_unfold.
  apply (mutex_op_frame E (Z.testbit mode 0) (index (mutexes w) n) w).
Qed.

(** X9. [DynLockFunction] never throws and never aborts the process.  When
    it returns or waits it has neither allocated nor released memory, has
    initialised or destroyed no mutex, has left both globals and the set of
    live blocks as they were, and has changed no mutex other than the one
    inside the handle: neither a static lock nor another handle. *)
Theorem DynLockFunction_frame E mode v w :
  match DynLockFunction E mode v w with
  | Returned _ w' | Blocked w' =>
      mutexes w' = mutexes w ∧ numMutexes w' = numMutexes w ∧
      dom (heap w') = dom (heap w) ∧
      (∀ q, q ≠ index v 0 → load (heap w') q = load (heap w) q) ∧
      allocations (since w w') = [] ∧ releases (since w w') = [] ∧
      mutex_inits (since w w') = [] ∧ mutex_destroys (since w w') = []
  | Undefined => True
  | _ => False
  end.
Proof.
  rewrite DynLockFunction_unfold.
  apply (mutex_op_frame E (Z.testbit mode 0) (index v 0) w).
Qed.

(** X10. On a free slot, a locking call followed by an unlocking call of
    the same thread both return, make exactly one [pthread_mutex_lock] and
    one [pthread_mutex_unlock] on that slot, and leave heap and globals
    exactly as they were. *)
Theorem LockingFunction_lock_unlock E ml mu n w :
  Z.testbit ml 0 = true → Z.testbit mu 0 = false →
  load (heap w) (index (mutexes w) n) = Some MIdle →
  ∃ w', (LockingFunction E ml n ;; LockingFunction E mu n) w = Returned () w' ∧
        heap w' = heap w ∧ mutexes w' = mutexes w ∧
        numMutexes w' = numMutexes w ∧
        since w w' = [ MutexLock (index (mutexes w) n);
                       MutexUnlock (index (mutexes w) n) ].
Proof.
  intros Hml Hmu Hl. set (p := index (mutexes w) n) in *.
  unfold mbind, M_bind.
  rewrite LockingFunction_unfold, Hml. fold p. rewrite (lock_idle E p w Hl).
  rewrite LockingFunction_unfold, Hmu.
  change (index (mutexes (emit _ (with_heap _ w))) n) with p.
  rewrite unlock_held by (cbn; by apply (load_store_eq _ _ _ MIdle)).
  eexists. split; [done|]. cbn.
  split; [by apply store_store_id|]. split; [done|]. split; [done|].
  apply since_app. cbn. by rewrite <- app_assoc.
Qed.

Lemma LockingFunction_lock_unlock_witness :
  ∃ w', (LockingFunction env0 (Z.lor CRYPTO_LOCK CRYPTO_READ) 1 ;;
         LockingFunction env0 (Z.lor CRYPTO_UNLOCK CRYPTO_READ) 1) world1
          = Returned () w' ∧
        heap w' = heap world1 ∧ mutexes w' = mutexes world1 ∧
        numMutexes w' = numMutexes world1 ∧
        since world1 w' = [ MutexLock (index (mutexes world1) 1);
                            MutexUnlock (index (mutexes world1) 1) ].
Proof.
  apply (LockingFunction_lock_unlock env0 (Z.lor CRYPTO_LOCK CRYPTO_READ)
           (Z.lor CRYPTO_UNLOCK CRYPTO_READ) 1 world1);
    vm_compute; reflexivity.
Defined.

(** X11. Both lock callbacks read bit 0 of the mode and nothing else: two
    modes that agree on [CRYPTO_LOCK] act alike, whatever their other bits.
    In particular [CRYPTO_UNLOCK] is never consulted: a mode with neither
    bit set unlocks, one with both bits set locks. *)
Theorem lock_mode_bit0_only E mode mode' n v w :
  Z.testbit mode 0 = Z.testbit mode' 0 →
  LockingFunction E mode n w = LockingFunction E mode' n w ∧
  DynLockFunction E mode v w = DynLockFunction E mode' v w.
Proof.
  intros H. by rewrite !LockingFunction_unfold, !DynLockFunction_unfold, H.
Qed.

Lemma lock_mode_bit0_only_witness :
  LockingFunction env0 0 0 world_held
    = LockingFunction env0 CRYPTO_UNLOCK 0 world_held ∧
  DynLockFunction env0 0 (Ptr 1 0) world_held
    = DynLockFunction env0 CRYPTO_UNLOCK (Ptr 1 0) world_held.
Proof.
  apply (lock_mode_bit0_only env0 0 CRYPTO_UNLOCK 0 (Ptr 1 0) world_held).
  reflexivity.
Defined.

(** ** A whole session of static locking *)

Lemma forallb_insert_initialised cells :
  ∀ (k : nat) m,
    forallb initialised cells = true → initialised m = true →
    forallb initialised (<[k := m]> cells) = true.
Proof.
  induction cells as [|c cells IH]; intros k m Hall Hm; [done|].
  cbn in Hall. apply andb_true_iff in Hall as [Hc Hall].
  destruct k as [|k]; cbn.
  - by rewrite Hm.
  - rewrite Hc. by apply IH.
Qed.

Lemma store_ready (h : gmap block (list pthread_mutex_t)) b o m cells :
  h !! b = Some cells → forallb initialised cells = true →
  initialised m = true →
  ∃ cells', store (Ptr b o) m h !! b = Some cells' ∧
            length cells' = length cells ∧
            forallb initialised cells' = true ∧
            delete b (store (Ptr b o) m h) = delete b h.
Proof.
  intros Hb Hall Hm. unfold store. destruct (0 <=? o).
  - exists (<[Z.to_nat o := m]> cells). rewrite lookup_alter_eq, Hb.
    split; [done|]. split; [apply length_insert|].
    split; [by apply forallb_insert_initialised|apply delete_alter_eq].
  - by exists cells.
Qed.

Lemma LockingFunction_ready E mode n w w' b :
  table_ready w b →
  LockingFunction E mode n w = Returned () w' →
  table_ready w' b ∧ delete b (heap w') = delete b (heap w).
Proof.
  intros (cells & (Hm & Hb & Hn) & Hall). rewrite LockingFunction_unfold.
  rewrite Hm, index_0.
  destruct (Z.testbit mode 0).
  - unfold pthread_mutex_lock. mred.
    destruct (load (heap w) (Ptr b n)) as [[| |t|]|]; try done.
    + intros [= <-].
      destruct (store_ready (heap w) b n (MLocked (self E)) cells Hb Hall eq_refl)
        as (cells' & Hb' & Hlen & Hall' & Hdel).
      split; [|done]. exists cells'. split; [|done].
      repeat split; cbn; [done..|]. by rewrite Hlen.
    + by destruct (decide (t = self E)).
  - unfold pthread_mutex_unlock. mred.
    destruct (load (heap w) (Ptr b n)) as [[| |t|]|]; try done.
    destruct (decide (t = self E)); [|done].
    intros [= <-].
    destruct (store_ready (heap w) b n MIdle cells Hb Hall eq_refl)
      as (cells' & Hb' & Hlen & Hall' & Hdel).
    split; [|done]. exists cells'. split; [|done].
    repeat split; cbn; [done..|]. by rewrite Hlen.
Qed.

Lemma locking_calls_ready E calls :
  ∀ w w' b,
    table_ready w b →
    locking_calls E calls w = Returned () w' →
    table_ready w' b ∧ delete b (heap w') = delete b (heap w) ∧
    numMutexes w' = numMutexes w.
Proof.
  induction calls as [|[mode n] calls IH]; intros w w' b Hready.
  - by intros [= <-].
  - cbn [locking_calls]. unfold mbind, M_bind.
    pose proof (mutex_op_frame E (Z.testbit mode 0) (index (mutexes w) n) w) as HF.
    rewrite <- LockingFunction_unfold in HF.
    destruct (LockingFunction E mode n w) as [[] w1| | | |] eqn:H1; try done.
    destruct (LockingFunction_ready E mode n w w1 b Hready H1) as [Hr1 Hd1].
    intros H2. destruct (IH w1 w' b Hr1 H2) as (Hr & Hd & Hn).
    split; [done|]. split; [by rewrite Hd|].
    destruct HF as (_ & Hn1 & _). by rewrite Hn.
Qed.

(** X12. After a [ClassInit] that returned and any sequence of
    [LockingFunction] calls that returned, [ClassDestroy] returns: it calls
    [pthread_mutex_destroy] once on every slot of the table, in order
    (with success on a free mutex, [EBUSY] on one still held), releases the
    table once, and leaves the heap exactly as it was before [ClassInit]. *)
Theorem session_teardown E w w0 calls w1 :
  ClassInit E w = Returned () w0 →
  locking_calls E calls w0 = Returned () w1 →
  ∃ b cells w2,
    mutexes w1 = Ptr b 0 ∧ heap w1 !! b = Some cells ∧
    forallb initialised cells = true ∧
    ClassDestroy w1 = Returned () w2 ∧
    mutex_destroys (since w1 w2) =
      zip (table_slots b (num_locks E)) (destroy_rc <$> cells) ∧
    releases (since w1 w2) = [Ptr b 0] ∧
    heap w2 = heap w.
Proof.
  intros [Hok ->]%ClassInit_returned Hcalls.
  set (b := fresh (dom (heap w))) in *.
  assert (HN : 0 ≤ num_locks E) by by apply (init_ok_nonneg E w).
  assert (Hready : table_ready (after_init E w) b).
  { eexists. split; [by apply after_init_live|apply replicate_initialised]. }
  destruct (locking_calls_ready E calls _ _ b Hready Hcalls)
    as ((cells & Hlive & Hall) & Hdel & Hnum).
  exists b, cells, (after_destroy w1 b cells).
  destruct Hlive as (Hm & Hb & Hlen).
  split; [done|]. split; [done|]. split; [done|].
  split; [by apply ClassDestroy_live|].
  rewrite since_after_destroy.
  split.
  { rewrite !mutex_destroys_app, mutex_destroys_slots, length_fmap. cbn.
    rewrite app_nil_r. unfold table_slots. do 3 f_equal.
    rewrite Hlen, Hnum. done. }
  split. { by rewrite !releases_app, releases_slots. }
  cbn. rewrite Hdel. cbn. apply delete_insert_id, fresh_block.
Qed.

Lemma session_teardown_witness :
  ∃ b cells w2,
    mutexes world_held = Ptr b 0 ∧ heap world_held !! b = Some cells ∧
    forallb initialised cells = true ∧
    ClassDestroy world_held = Returned () w2 ∧
    mutex_destroys (since world_held w2) =
      zip (table_slots b (num_locks env0)) (destroy_rc <$> cells) ∧
    releases (since world_held w2) = [Ptr b 0] ∧
    heap w2 = heap initial_world.
Proof.
  apply (session_teardown env0 initial_world world1
           [(Z.lor CRYPTO_LOCK CRYPTO_WRITE, 0)] world_held);
    vm_compute; reflexivity.
Defined.

(** ** Dynamic locks: freshness, independence, misuse *)

Lemma DynCreateFunction_returned E w h w1 :
  DynCreateFunction E w = Returned h w1 →
  ∃ b c, h = Ptr b 0 ∧ heap w !! b = None ∧
         heap w1 = <[b := [c]]> (heap w) ∧
         mutexes w1 = mutexes w ∧ numMutexes w1 = numMutexes w ∧
         trace w1 = trace w ++ [NewRecord h; MutexInit h (mutex_init_rc E h)].
Proof.
  rewrite DynCreateFunction_run.
  destruct (new_fails E (heap w) 1); [done|]. cbn zeta.
  intros [= <- <-]. eexists _, _. split; [done|].
  split; [apply fresh_block|]. done.
Qed.

Lemma load_insert_other (h : gmap block (list pthread_mutex_t)) b cells q :
  h !! b = None → is_Some (load h q) → load (<[b := cells]> h) q = load h q.
Proof.
  intros Hb Hq. destruct q as [|b' o]; [done|].
  destruct (decide (b' = b)) as [->|Hne].
  - rewrite (load_dead h b o Hb) in Hq. by destruct Hq.
  - unfold load. by rewrite lookup_insert_ne.
Qed.

(** X13. A handle that [DynCreateFunction] returns is the start of a
    record that was not live before the call; the call allocates exactly
    that record, releases nothing, leaves both globals as they were, and
    changes no mutex that existed: neither a static lock nor another
    handle. *)
Theorem DynCreateFunction_fresh E w h w1 :
  DynCreateFunction E w = Returned h w1 →
  ∃ b, h = Ptr b 0 ∧ heap w !! b = None ∧ is_Some (heap w1 !! b) ∧
       dom (heap w1) = {[ b ]} ∪ dom (heap w) ∧
       mutexes w1 = mutexes w ∧ numMutexes w1 = numMutexes w ∧
       (∀ q, is_Some (load (heap w) q) → load (heap w1) q = load (heap w) q) ∧
       allocations (since w w1) = [h] ∧ releases (since w w1) = [].
Proof.
  intros (b & c & -> & Hb & Hh & Hm & Hn & Ht)%DynCreateFunction_returned.
  exists b. rewrite Hh, (since_app w w1 _ Ht).
  split; [done|]. split; [done|].
  split; [by rewrite lookup_insert_eq|]. split; [apply dom_insert_L|].
  split; [done|]. split; [done|]. split; [|done].
  intros q Hq. by apply load_insert_other.
Qed.

Lemma DynCreateFunction_fresh_witness :
  ∃ b, Ptr 1 0 = Ptr b 0 ∧ heap initial_world !! b = None ∧
       is_Some (heap world_dyn !! b) ∧
       dom (heap world_dyn) = {[ b ]} ∪ dom (heap initial_world) ∧
       mutexes world_dyn = mutexes initial_world ∧
       numMutexes world_dyn = numMutexes initial_world ∧
       (∀ q, is_Some (load (heap initial_world) q) →
             load (heap world_dyn) q = load (heap initial_world) q) ∧
       allocations (since initial_world world_dyn) = [Ptr 1 0] ∧
       releases (since initial_world world_dyn) = [].
Proof.
  apply (DynCreateFunction_fresh env0 initial_world (Ptr 1 0) world_dyn).
  vm_compute. reflexivity.
Defined.

(** X14. Two handles returned by two calls of [DynCreateFunction] are
    different, and their mutexes are independent: when both were
    initialised, locking the first leaves the second free, and the second
    can then be locked as well; both calls return. *)
Theorem dyn_handles_independent E w h1 w1 h2 w2 ml :
  DynCreateFunction E w = Returned h1 w1 →
  DynCreateFunction E w1 = Returned h2 w2 →
  load (heap w1) (index h1 0) = Some MIdle →
  load (heap w2) (index h2 0) = Some MIdle →
  Z.testbit ml 0 = true →
  h1 ≠ h2 ∧
  ∃ w3 w4,
    DynLockFunction E ml h1 w2 = Returned () w3 ∧
    load (heap w3) (index h2 0) = Some MIdle ∧
    DynLockFunction E ml h2 w3 = Returned () w4 ∧
    load (heap w4) (index h1 0) = Some (MLocked (self E)) ∧
    load (heap w4) (index h2 0) = Some (MLocked (self E)).
Proof.
  intros (b1 & c1 & -> & Hb1 & Hh1 & _)%DynCreateFunction_returned
         (b2 & c2 & -> & Hb2 & Hh2 & _)%DynCreateFunction_returned.
  rewrite !index_0. intros Hl1 Hl2 Hml.
  assert (Hne : b1 ≠ b2).
  { intros ->. by rewrite Hh1, lookup_insert_eq in Hb2. }
  assert (Hp : Ptr b2 0 ≠ Ptr b1 0) by (intros [= ?]; by apply Hne).
  split; [by intros [= ?]|].
  assert (Hl1' : load (heap w2) (Ptr b1 0) = Some MIdle).
  { rewrite Hh2, load_insert_other; by rewrite ?Hl1. }
  rewrite !DynLockFunction_unfold, Hml, !index_0.
  rewrite (lock_idle E (Ptr b1 0) w2 Hl1'). eexists _, _.
  split; [done|]. cbn [heap emit with_heap].
  assert (Hl2' : load (store (Ptr b1 0) (MLocked (self E)) (heap w2)) (Ptr b2 0)
                 = Some MIdle) by by rewrite load_store_ne.
  split; [done|].
  rewrite DynLockFunction_unfold, Hml, !index_0.
  rewrite lock_idle by done. split; [done|]. cbn [heap emit with_heap].
  split.
  - rewrite load_store_ne by (intros [= ?]; by apply Hne).
    by apply (load_store_eq _ _ _ MIdle).
  - by apply (load_store_eq _ _ _ MIdle).
Qed.

Lemma dyn_handles_independent_witness :
  Ptr 1 0 ≠ Ptr 2 0 ∧
  ∃ w3 w4,
    DynLockFunction env0 CRYPTO_LOCK (Ptr 1 0) world_dyn2 = Returned () w3 ∧
    load (heap w3) (index (Ptr 2 0) 0) = Some MIdle ∧
    DynLockFunction env0 CRYPTO_LOCK (Ptr 2 0) w3 = Returned () w4 ∧
    load (heap w4) (index (Ptr 1 0) 0) = Some (MLocked (self env0)) ∧
    load (heap w4) (index (Ptr 2 0) 0) = Some (MLocked (self env0)).
Proof.
  apply (dyn_handles_independent env0 initial_world (Ptr 1 0) world_dyn
           (Ptr 2 0) world_dyn2 CRYPTO_LOCK);
    vm_compute; reflexivity.
Defined.

Lemma delete_store (h : gmap block (list pthread_mutex_t)) b o m :
  delete b (store (Ptr b o) m h) = delete b h.
Proof. unfold store. destruct (0 <=? o); [apply delete_alter_eq|done]. Qed.

Lemma load_block (h : gmap block (list pthread_mutex_t)) b o c :
  load h (Ptr b o) = Some c → is_Some (h !! b).
Proof.
  unfold load. destruct (0 <=? o); [|done]. by destruct (h !! b).
Qed.

(** X15. On a handle whose mutex is initialised, [DynDestroyFunction]
    always returns and always releases the record, whether the mutex is
    free or still held.  When it is held, [pthread_mutex_destroy] fails
    with [EBUSY]; the return code is dropped (line 149): nothing is
    reported, unlike in [ClassDestroy]. *)
Theorem DynDestroyFunction_silent b c w :
  load (heap w) (Ptr b 0) = Some c → initialised c = true →
  ∃ w', DynDestroyFunction (Ptr b 0) w = Returned () w' ∧
        since w w' = [ MutexDestroy (Ptr b 0) (if decide (c = MIdle) then 0 else EBUSY);
                       DeleteRecord (Ptr b 0) ] ∧
        heap w' = delete b (heap w) ∧
        mutexes w' = mutexes w ∧ numMutexes w' = numMutexes w.
Proof.
  intros Hl Hc. destruct (load_block _ _ _ _ Hl) as [cells Hb].
  unfold DynDestroyFunction, pthread_mutex_destroy. mred.
  rewrite index_0, Hl. destruct c as [| |t|]; try done; cbn;
    unfold delete_record, release; cbn; rewrite decide_True by done.
  - destruct (store_block (heap w) (Ptr b 0) MDestroyed b cells Hb)
      as (cells' & -> & _).
    eexists. split; [done|]. cbn. rewrite delete_store.
    split; [|done]. apply since_app. cbn. by rewrite <- app_assoc.
  - rewrite Hb. eexists. split; [done|]. cbn.
    split; [|done]. apply since_app. cbn. by rewrite <- app_assoc.
Qed.

Lemma DynDestroyFunction_silent_witness :
  ∃ w', DynDestroyFunction (Ptr 1 0) world_dyn_held = Returned () w' ∧
        since world_dyn_held w' =
          [ MutexDestroy (Ptr 1 0) (if decide (MLocked 7 = MIdle) then 0 else EBUSY);
            DeleteRecord (Ptr 1 0) ] ∧
        heap w' = delete 1%positive (heap world_dyn_held) ∧
        mutexes w' = mutexes world_dyn_held ∧
        numMutexes w' = numMutexes world_dyn_held.
Proof.
  apply (DynDestroyFunction_silent 1 (MLocked 7) world_dyn_held);
    vm_compute; reflexivity.
Defined.

Lemma DynLockFunction_undefined E mode v w :
  load (heap w) (index v 0) = None → DynLockFunction E mode v w = Undefined.
Proof.
  intros H. rewrite DynLockFunction_unfold.
  destruct (Z.testbit mode 0);
    unfold pthread_mutex_lock, pthread_mutex_unlock; mred; by rewrite H.
Qed.

(** X16. Once [DynDestroyFunction] has returned, the record is gone: a
    later lock or unlock through the same handle, and a second destroy of
    it, have undefined behaviour; nothing detects the stale handle. *)
Theorem dyn_use_after_destroy E mode v w w' :
  DynDestroyFunction v w = Returned () w' →
  load (heap w') (index v 0) = None ∧
  DynLockFunction E mode v w' = Undefined ∧
  DynDestroyFunction v w' = Undefined.
Proof.
  intros H.
  assert (Hl : load (heap w') (index v 0) = None).
  { revert H. unfold DynDestroyFunction, pthread_mutex_destroy. mred.
    destruct v as [|b o]; [done|].
    destruct (load (heap w) (index (Ptr b o) 0)) as [[| |t|]|]; try done; cbn;
      unfold delete_record, release; cbn;
      (destruct (decide (o = 0)) as [->|]; [|done]);
      match goal with |- context [?h !! b] => destruct (h !! b); [|done] end;
      intros [= <-]; cbn; apply load_dead, lookup_delete_eq. }
  split; [done|]. split; [by apply DynLockFunction_undefined|].
  unfold DynDestroyFunction, pthread_mutex_destroy. mred. by rewrite Hl.
Qed.

Lemma dyn_use_after_destroy_witness :
  load (heap world_dyn_gone) (index (Ptr 1 0) 0) = None ∧
  DynLockFunction env0 CRYPTO_LOCK (Ptr 1 0) world_dyn_gone = Undefined ∧
  DynDestroyFunction (Ptr 1 0) world_dyn_gone = Undefined.
Proof.
  apply (dyn_use_after_destroy env0 CRYPTO_LOCK (Ptr 1 0) world_dyn world_dyn_gone).
  vm_compute. reflexivity.
Defined.

(** ** The thread identity *)

(** X17. [SetThreadId] always returns and does one thing only: it hands
    the library the identity of the running thread as an unsigned long.
    It touches neither heap nor globals, and two threads whose identities
    fit an unsigned long and differ report different values. *)
Theorem SetThreadId_distinct E1 E2 w :
  0 ≤ self E1 < 2 ^ 64 → 0 ≤ self E2 < 2 ^ 64 → self E1 ≠ self E2 →
  ∃ t1 t2,
    SetThreadId E1 w = Returned () (emit (Lib (CRYPTO_THREADID_set_numeric t1)) w) ∧
    SetThreadId E2 w = Returned () (emit (Lib (CRYPTO_THREADID_set_numeric t2)) w) ∧
    t1 = self E1 ∧ t2 = self E2 ∧ t1 ≠ t2.
Proof.
  intros H1 H2 Hne. exists (self E1 mod 2 ^ 64), (self E2 mod 2 ^ 64).
  split; [done|]. split; [done|].
  rewrite !Z.mod_small by done. done.
Qed.

Lemma SetThreadId_distinct_witness :
  ∃ t1 t2,
    SetThreadId env0 world1
      = Returned () (emit (Lib (CRYPTO_THREADID_set_numeric t1)) world1) ∧
    SetThreadId env_other_thread world1
      = Returned () (emit (Lib (CRYPTO_THREADID_set_numeric t2)) world1) ∧
    t1 = self env0 ∧ t2 = self env_other_thread ∧ t1 ≠ t2.
Proof.
  apply (SetThreadId_distinct env0 env_other_thread world1);
    vm_compute; (discriminate || (split; [discriminate|reflexivity])).
Defined.

(** ** The lifecycle, misused *)

(** X18. A second [ClassInit] without a [ClassDestroy] in between
    allocates a second table and overwrites [mutexes].  The [ClassDestroy]
    that follows releases the second table only: the first table, with
    its initialised mutexes, stays allocated and no global points at it any
    more. *)
Theorem ClassInit_twice_leaks E w w1 w2 :
  ClassInit E w = Returned () w1 →
  ClassInit E w1 = Returned () w2 →
  ∃ b1 b2 w3,
    mutexes w1 = Ptr b1 0 ∧ mutexes w2 = Ptr b2 0 ∧ b1 ≠ b2 ∧
    ClassDestroy w2 = Returned () w3 ∧
    releases (since w2 w3) = [Ptr b2 0] ∧
    mutexes w3 = Ptr b2 0 ∧
    heap w3 = heap w1 ∧
    heap w3 !! b1 = Some (replicate (Z.to_nat (num_locks E)) MIdle).
Proof.
  intros [Hok ->]%ClassInit_returned [Hok1 ->]%ClassInit_returned.
  set (w1 := after_init E w) in *.
  set (b1 := fresh (dom (heap w))). set (b2 := fresh (dom (heap w1))).
  assert (H1 : heap w1 !! b1 = Some (replicate (Z.to_nat (num_locks E)) MIdle))
    by apply lookup_insert_eq.
  assert (H2 : heap w1 !! b2 = None) by apply fresh_block.
  exists b1, b2. eexists. split; [done|]. split; [done|].
  split; [intros Heq; by rewrite Heq, H2 in H1|].
  split; [by apply ClassDestroy_after_init|].
  rewrite since_after_destroy. fold b2.
  split. { by rewrite !releases_app, releases_slots. }
  split; [done|].
  assert (Hh : delete b2 (<[b2 := replicate (Z.to_nat (num_locks E)) MIdle]> (heap w1))
               = heap w1) by by apply delete_insert_id.
  split; [exact Hh|]. cbn [heap after_destroy after_init]. fold b2.
  by rewrite Hh.
Qed.

Lemma ClassInit_twice_leaks_witness :
  ∃ b1 b2 w3,
    mutexes world1 = Ptr b1 0 ∧ mutexes (after_init env0 world1) = Ptr b2 0 ∧
    b1 ≠ b2 ∧
    ClassDestroy (after_init env0 world1) = Returned () w3 ∧
    releases (since (after_init env0 world1) w3) = [Ptr b2 0] ∧
    mutexes w3 = Ptr b2 0 ∧
    heap w3 = heap world1 ∧
    heap w3 !! b1 = Some (replicate (Z.to_nat (num_locks env0)) MIdle).
Proof.
  apply (ClassInit_twice_leaks env0 initial_world world1 (after_init env0 world1));
    vm_compute; reflexivity.
Defined.

Lemma destroy_slot_uninit i w :
  load (heap w) (index (mutexes w) i) = Some MUninit →
  destroy_slot i w = Undefined.
Proof.
  intros H. unfold destroy_slot, pthread_mutex_destroy. mred. by rewrite H.
Qed.

(** The first turns of the destruction loop over a longer table. *)
Lemma destroy_loop_prefix b (cells : list pthread_mutex_t) :
  ∀ i done rest n h tr,
    Z.of_nat (length done) = i →
    h !! b = Some (done ++ cells ++ rest) →
    forallb initialised cells = true →
    for_from (length cells) i destroy_slot (mkWorld (Ptr b 0) n h tr) =
      Returned ()
        (mkWorld (Ptr b 0) n (<[b := done ++ (destroyed <$> cells) ++ rest]> h)
           (tr ++ slot_destroys (Ptr b 0) i (destroy_rc <$> cells))).
Proof.
  induction cells as [|c cells IH]; intros i done rest n h tr Hi Hb Hall.
  - cbn in Hb |- *. rewrite app_nil_r. by rewrite insert_id.
  - cbn in Hall. apply andb_true_iff in Hall as [Hc Hall].
    cbn [length]. rewrite for_from_S.
    rewrite (destroy_slot_run b n h tr i c)
      by (done || by apply (load_middle h b done c (cells ++ rest) i)).
    assert (Hlen : Z.of_nat (length (done ++ [destroyed c])) = i + 1)
      by (rewrite length_app; cbn; lia).
    cbn [fmap list_fmap slot_destroys]. rewrite index_0.
    rewrite (app_assoc tr). cbn [app].
    rewrite (cons_middle (destroyed c)), (app_assoc done).
    destruct c as [| |t|]; try done.
    + pose proof (store_middle h b done MIdle MDestroyed (cells ++ rest) i Hb Hi)
        as Hst.
      rewrite (IH (i + 1) (done ++ [MDestroyed]) rest n _ _ Hlen Hst Hall).
      by rewrite insert_store.
    + cbn [app] in Hb.
      rewrite (cons_middle (MLocked t)), (app_assoc done) in Hb.
      by rewrite (IH (i + 1) (done ++ [MLocked t]) rest n h _ Hlen Hb Hall).
Qed.

(** X19. A [ClassInit] that failed at slot [k] cannot be cleaned up by
    [ClassDestroy]: [numMutexes] already holds the full lock count, so the
    loop of [ClassDestroy] runs past the initialised slots and calls
    [pthread_mutex_destroy] on slot [k], which holds no mutex: undefined
    behaviour. *)
Theorem ClassDestroy_after_failed_init E w k :
  new_fails E (heap w) (num_locks E) = false →
  0 ≤ k < num_locks E →
  slots_init_ok E (Ptr (fresh (dom (heap w))) 0) 0 k = true →
  mutex_init_rc E (Ptr (fresh (dom (heap w))) k) ≠ 0 →
  ∃ e w', ClassInit E w = Thrown e w' ∧
          numMutexes w' = num_locks E ∧
          load (heap w') (index (mutexes w') k) = Some MUninit ∧
          ClassDestroy w' = Undefined.
Proof.
  intros Hal Hk Hok Hrc.
  rewrite (ClassInit_fails_at E w k Hal Hk Hok Hrc).
  set (b := fresh (dom (heap w))). set (N := num_locks E) in *.
  set (kn := Z.to_nat k). set (m := Z.to_nat (N - k - 1)).
  assert (HN : Z.to_nat N = (kn + S m)%nat) by lia.
  assert (Hkn : Z.of_nat kn = k) by lia.
  assert (Hm : Z.to_nat (N - k) = S m) by lia.
  fold kn. rewrite Hm.
  eexists _, _. split; [done|]. cbn [numMutexes mutexes heap].
  split; [done|].
  assert (Hl : load (<[b := replicate kn MIdle ++ replicate (S m) MUninit]> (heap w))
                 (Ptr b k) = Some MUninit).
  { apply (load_middle _ b (replicate kn MIdle) MUninit (replicate m MUninit)).
    - by rewrite lookup_insert_eq.
    - by rewrite length_replicate. }
  split; [by rewrite index_0|].
  unfold ClassDestroy. mred. unfold for_lt, emit. cbn.
  fold N. rewrite HN, for_from_add.
  replace kn with (length (replicate kn MIdle)) at 1
    by apply length_replicate.
  rewrite (destroy_loop_prefix b (replicate kn MIdle) 0 [] (replicate (S m) MUninit)
             N _ _ eq_refl)
    by (by rewrite ?lookup_insert_eq || apply replicate_initialised).
  rewrite for_from_S, destroy_slot_uninit; [done|].
  cbn [heap mutexes]. rewrite index_0, insert_insert_eq, Z.add_0_l, Hkn.
  apply (load_middle _ b (destroyed <$> replicate kn MIdle) MUninit
           (replicate m MUninit)).
  - by rewrite lookup_insert_eq.
  - by rewrite length_fmap, length_replicate.
Qed.

Lemma ClassDestroy_after_failed_init_witness :
  ∃ e w', ClassInit env_slot1_fails initial_world = Thrown e w' ∧
          numMutexes w' = num_locks env_slot1_fails ∧
          load (heap w') (index (mutexes w') 1) = Some MUninit ∧
          ClassDestroy w' = Undefined.
Proof.
  apply (ClassDestroy_after_failed_init env_slot1_fails initial_world 1);
    vm_compute; (reflexivity || discriminate || (split; [discriminate|reflexivity])).
Defined.

(** X20. [DynCreateFunction] ends in one of two ways only.  Either it
    returns a handle, which is never null; or, exactly when the allocator
    gave up, [std::bad_alloc] leaves the function with heap and globals
    untouched and no mutex primitive called.  It never aborts the process
    (the branch of lines 125 to 129 is never taken), never waits and has no
    undefined behaviour. *)
Theorem DynCreateFunction_outcomes E w :
  match DynCreateFunction E w with
  | Returned h w' =>
      new_fails E (heap w) 1 = false ∧ is_null h = false ∧
      allocations (since w w') = [h]
  | Thrown e w' =>
      new_fails E (heap w) 1 = true ∧ e = std_bad_alloc ∧
      heap w' = heap w ∧ mutexes w' = mutexes w ∧
      numMutexes w' = numMutexes w ∧
      since w w' = [NewRecordThrows] ∧
      allocations (since w w') = [] ∧ mutex_inits (since w w') = []
  | _ => False
  end.
Proof.
  rewrite DynCreateFunction_run.
  destruct (new_fails E (heap w) 1); cbn zeta.
  - rewrite since_emit_only. by repeat split.
  - split; [done|]. split; [done|].
    match goal with |- allocations (since w ?w1) = _ =>
      assert (Hs : since w w1 = [NewRecord (Ptr (fresh (dom (heap w))) 0);
                                 MutexInit (Ptr (fresh (dom (heap w))) 0)
                                   (mutex_init_rc E (Ptr (fresh (dom (heap w))) 0))])
        by by apply since_app
    end.
    by rewrite Hs.
Qed.
